(** * Shop-Sections-Tracker: the poll cycle of [main.py], embedded and verified

    The program polls the item-shop feed, turns every section of the feed
    into a comparison record, posts one webhook message per section whose
    record changed, and rewrites [old_shop_data.json] when the mapping of
    all records changed.

    Layout of this file:
    - [Py]: the Python built-ins the program relies on ([sorted], [set],
      [str.join], [str], truthiness, exceptions);
    - the feed schema (the members of the JSON feed the program reads);
    - the comparison record and its dictionary form;
    - [create_embed_for_section];
    - the outside world (snapshot file, HTTP endpoints, log) as explicit
      state with a trace of side effects, and the functions that act on it;
    - [process_shop_data] and [main_loop];
    - vocabulary for reading the trace of a cycle, and sample data;
    - the theorems, and the scenarios of the specification run on the
      sample data.

    What the program does not define is a parameter of the development:
    the [datetime] library ([DatetimeLib]) and the answers of the feed,
    of the webhook and of the disk ([Outside]).

    Strings are [string]s of one-byte characters.  Python compares strings
    by code point; on UTF-8 encoded text the byte-wise order used here is
    the same order. *)

From Stdlib Require Import ZArith String Ascii List.
From stdpp Require Import base option list sorting gmap strings pretty fin_maps.

Local Open Scope Z_scope.

(* ===================================================================== *)
(** ** Python built-ins *)
(* ===================================================================== *)

Module Py.

(** Exceptions the program can meet, by class.  The payload is [str(e)].
    [RequestsJSONDecodeError] is [requests.exceptions.JSONDecodeError],
    which [response.json()] raises since requests 2.27; it derives from
    both [requests.RequestException] and [json.JSONDecodeError]. *)
Inductive exn :=
  | RequestException (msg : string)
  | JSONDecodeError (msg : string)
  | RequestsJSONDecodeError (msg : string)
  | FileNotFoundError (msg : string)
  | UnicodeDecodeError (msg : string)
  | RecursionError (msg : string)
  | ValueError (msg : string).

Definition exn_str (e : exn) : string :=
  match e with
  | RequestException m | JSONDecodeError m | RequestsJSONDecodeError m
  | FileNotFoundError m | UnicodeDecodeError m | RecursionError m | ValueError m => m
  end.

(** [isinstance(e, requests.RequestException)] *)
Definition is_RequestException (e : exn) : bool :=
  match e with
  | RequestException _ | RequestsJSONDecodeError _ => true
  | _ => false
  end.

(** [isinstance(e, json.JSONDecodeError)] *)
Definition is_JSONDecodeError (e : exn) : bool :=
  match e with
  | JSONDecodeError _ | RequestsJSONDecodeError _ => true
  | _ => false
  end.

(** [isinstance(e, FileNotFoundError)] *)
Definition is_FileNotFoundError (e : exn) : bool :=
  match e with
  | FileNotFoundError _ => true
  | _ => false
  end.

(** A computation that returns or raises. *)
Inductive result (A : Type) :=
  | Ok (a : A)
  | Raise (e : exn).
Arguments Ok {A} a.
Arguments Raise {A} e.

Definition is_ok {A} (r : result A) : bool :=
  match r with Ok _ => true | Raise _ => false end.

(** [x < y] and [x <= y] on [str]: lexicographic on character codes. *)
Definition str_le (s1 s2 : string) : Prop := String.leb s1 s2 = true.
Definition str_lt (s1 s2 : string) : Prop := String.ltb s1 s2 = true.

Global Instance str_le_dec : RelDecision str_le.
Proof. intros s1 s2. unfold str_le. apply _. Defined.
Global Instance str_lt_dec : RelDecision str_lt.
Proof. intros s1 s2. unfold str_lt. apply _. Defined.

(** [sorted(xs)] on a list of [str].  [list.sort] is a merge sort. *)
Definition sorted (xs : list string) : list string := merge_sort str_le xs.

(** [set(xs)] on [str] elements, and iteration over a set (in the order
    the set happens to enumerate its elements). *)
Definition set (xs : list string) : gset string := list_to_set xs.
Definition iter_set (s : gset string) : list string := elements s.

(** ["\n"] *)
Definition newline : string := String (ascii_of_nat 10) EmptyString.

(** [sep.join(xs)] *)
Definition join (sep : string) (xs : list string) : string := String.concat sep xs.

(** [str(n)] on an [int]. *)
Definition str (n : Z) : string := pretty n.

(** Truth value of an optional [str]: [None] and [""] are false. *)
Definition truthy (o : option string) : bool :=
  match o with
  | Some s => negb (String.eqb s "")
  | None => false
  end.

(** Truth value of a [str]. *)
Definition truthy_str (s : string) : bool := negb (String.eqb s "").

(** [x if x else d] on an optional [str]. *)
Definition or_else (o : option string) (d : string) : string :=
  match o with
  | Some s => if truthy_str s then s else d
  | None => d
  end.

End Py.

Import Py.

(* ===================================================================== *)
(** ** The feed schema

    The members of the feed's JSON objects that the program reads, typed
    as the feed delivers them.  A member is [None] when its key is absent
    from the object, which is the case in which [dict.get] falls back to
    its default; a member that is present holds a JSON string (or an
    object, or an array, as typed here).  Members the program never reads
    are left out. *)
(* ===================================================================== *)

Record StackRank := {
  context : option string;
  startDate : option string
}.

Record OfferGroup := {
  displayType : option string
}.

Record Background := {
  customTexture : option string
}.

Record Metadata := {
  background : option Background;
  offerGroups : option (list OfferGroup);
  stackRanks : option (list StackRank)
}.

Record RawSection := {
  sectionID : option string;
  displayName : option string;
  category : option string;
  metadata : option Metadata
}.

Record ShopData := {
  sections : option (list RawSection)
}.

Record Body := {
  shopData : option ShopData
}.

(** The empty object [{}] at each of these types. *)
Definition no_background : Background := {| customTexture := None |}.
Definition no_metadata : Metadata :=
  {| background := None; offerGroups := None; stackRanks := None |}.
Definition no_shop_data : ShopData := {| sections := None |}.

(* ===================================================================== *)
(** ** The comparison record *)
(* ===================================================================== *)

(** The record [new_section] that [process_shop_data] builds for a section. *)
Record NormalizedSection := {
  display_name : string;
  new_category : option string;
  background_url : string;
  group_count : Z;
  billboard : Z;
  contexts : list string;
  release_dates : list string
}.

(** Values stored under the keys of a record, in memory and in the
    snapshot file: [None] (JSON [null]), an [int], a [str], a list of
    [str].  On these values Python's [==] is equality, and [json.load]
    returns what [json.dump] was given. *)
Inductive value :=
  | VNone
  | VInt (n : Z)
  | VStr (s : string)
  | VList (l : list string).

Global Instance value_eq_dec : EqDecision value.
Proof. solve_decision. Defined.

(** A record as the dictionary it is in Python and in the snapshot file,
    and the snapshot: section identifier to record. *)
Abbreviation record := (gmap string value).
Abbreviation snapshot := (gmap string (gmap string value)).

Definition opt_value (o : option string) : value :=
  match o with Some s => VStr s | None => VNone end.

(** The dictionary literal of [new_section]. *)
Definition to_dict (n : NormalizedSection) : record :=
  <["display_name" := VStr (display_name n)]>
  (<["category" := opt_value (new_category n)]>
  (<["background_url" := VStr (background_url n)]>
  (<["group_count" := VInt (group_count n)]>
  (<["billboard" := VInt (billboard n)]>
  (<["contexts" := VList (contexts n)]>
  (<["release_dates" := VList (release_dates n)]> ∅)))))).

(** [rank.get("context", "Unknown") for rank in ranks] *)
Definition rank_contexts (ranks : list StackRank) : list string :=
  (λ rank, default "Unknown" (context rank)) <$> ranks.

(** [rank.get("startDate") for rank in ranks if rank.get("startDate")] *)
Definition rank_dates (ranks : list StackRank) : list string :=
  omap (λ rank, if truthy (startDate rank) then startDate rank else None) ranks.

(** [sum(1 for group in groups if group.get("displayType") == "billboard")] *)
Definition billboards (groups : list OfferGroup) : Z :=
  Z.of_nat (length (filter (λ group, displayType group = Some "billboard") groups)).

(** Lines 142-156 of [process_shop_data]: the record of one section. *)
Definition new_section_of (section : RawSection) : NormalizedSection :=
  let display_name := default "N/A" (displayName section) in
  let category := category section in
  let metadata := default no_metadata (metadata section) in
  let background_url := customTexture (default no_background (background metadata)) in
  {| display_name := display_name;
     new_category := if truthy category then category else None;
     background_url := or_else background_url "No Background";
     group_count := Z.of_nat (length (default [] (offerGroups metadata)));
     billboard := billboards (default [] (offerGroups metadata));
     contexts := sorted (iter_set (set (rank_contexts (default [] (stackRanks metadata)))));
     release_dates := sorted (rank_dates (default [] (stackRanks metadata))) |}.

(** Lines 161-165: the comparison that decides whether a section is
    announced.  [old_section] is [old_data.get(section_id, {})]. *)
Definition without_dates (d : record) : record :=
  filter (λ kv, kv.1 ≠ "release_dates") d.

Definition section_changed (old_section new_section : record) : bool :=
  bool_decide (without_dates old_section ≠ without_dates new_section).

Definition old_section_of (old_data : snapshot) (section_id : string) : record :=
  default ∅ (old_data !! section_id).

(* ===================================================================== *)
(** ** The message *)
(* ===================================================================== *)

(** The [datetime] module, as far as the program uses it:
    [datetime.fromisoformat], which raises on text it does not accept
    (which texts those are depends on the Python version), and
    [int(dt.timestamp())], which raises on a [datetime] whose POSIX time
    the platform cannot compute (a naive [datetime] of year 1, for one). *)
Class DatetimeLib := {
  datetime : Type;
  fromisoformat : string → result datetime;
  timestamp : datetime → result Z
}.

(** One entry of the embed's ["fields"] list. *)
Record field := Field {
  name : string;
  value_of : string;
  inline : bool
}.

Global Instance field_eq_dec : EqDecision field.
Proof. solve_decision. Defined.

(** The embed dictionary [{"fields": fields}]. *)
Record embed := Embed {
  fields : list field
}.

Global Instance embed_eq_dec : EqDecision embed.
Proof. solve_decision. Defined.

(** Evaluation of a list in order, stopping at the first element that
    raises (a list comprehension whose element expression can raise). *)
Fixpoint for_each {A B} (f : A → result B) (xs : list A) : result (list B) :=
  match xs with
  | [] => Ok []
  | x :: xs =>
      match f x with
      | Raise e => Raise e
      | Ok y =>
          match for_each f xs with
          | Raise e => Raise e
          | Ok ys => Ok (y :: ys)
          end
      end
  end.

Section Embed.
Context {lib : DatetimeLib}.

Definition to_discord_timestamp (dt : datetime) : result string :=
  match timestamp dt with
  | Ok unix_ts => Ok ("<t:" +:+ str unix_ts +:+ ":R>")
  | Raise e => Raise e
  end.

(** [to_discord_timestamp(datetime.datetime.fromisoformat(date))]: the
    element expression of the comprehension of line 71. *)
Definition date_marker (date : string) : result string :=
  match fromisoformat date with
  | Ok dt => to_discord_timestamp dt
  | Raise e => Raise e
  end.

(** Lines 70-72: the value of the release-dates field. *)
Definition release_dates_field (dates : list string) : result string :=
  match dates with
  | [] => Ok "No Release Dates"
  | _ =>
      match for_each date_marker (filter (λ date, truthy_str date = true) dates) with
      | Ok stamps => Ok (join newline stamps)
      | Raise e => Raise e
      end
  end.

Definition create_embed_for_section
    (section : RawSection) (new_section : NormalizedSection) : result embed :=
  let metadata := default no_metadata (metadata section) in
  let background_url := customTexture (default no_background (background metadata)) in
  let display_name := default "N/A" (displayName section) in
  let section_id := default "N/A" (sectionID section) in
  let category := category section in
  let background_field :=
    match background_url with
    | Some url => if truthy_str url then "[Background](" +:+ url +:+ ")" else "No Background"
    | None => "No Background"
    end in
  let contexts :=
    match contexts new_section with
    | [] => "No Context"
    | cs => join newline cs
    end in
  match release_dates_field (release_dates new_section) with
  | Raise e => Raise e
  | Ok release_dates =>
      let fields :=
        [ Field "**Display Name**" display_name true;
          Field "**Section ID**" section_id true ] in
      let fields :=
        if truthy category
        then fields ++ [Field "**Category**" (default "" category) true]
        else fields ++ [Field "**Background**" background_field true] in
      let second_row_fields := [] in
      let second_row_fields :=
        if truthy category
        then second_row_fields ++ [Field "**Background**" background_field true]
        else second_row_fields in
      let second_row_fields :=
        second_row_fields ++ [Field "**Group Count**" (str (group_count new_section)) true] in
      let second_row_fields :=
        if bool_decide (billboard new_section > 0)
        then second_row_fields ++ [Field "**Billboard**" (str (billboard new_section)) true]
        else second_row_fields in
      let fields := fields ++ second_row_fields in
      let fields := fields ++ [Field "**Context(s)**" contexts false] in
      let fields := fields ++ [Field "**Possible Release Dates**" release_dates false] in
      Ok (Embed fields)
  end.

End Embed.

(* ===================================================================== *)
(** ** The outside world *)
(* ===================================================================== *)

(** Constants of [main.py]. *)
Definition API_URL : string :=
  "https://fortnitecontent-website-prod07.ol.epicgames.com/content/api/pages/fortnite-game/mp-item-shop".
Definition WEBHOOK_URL : string := "YOUR_WEBHOOK_URL".
Definition CHECK_INTERVAL : Z := 60.
Definition SNAPSHOT_PATH : string := "old_shop_data.json".

(** What [old_shop_data.json] is to the program that opens and loads it:
    - [Missing]: there is no such file, [open] raises [FileNotFoundError];
    - [NotJson]: the file holds text that is not a JSON document,
      [json.load] raises [json.JSONDecodeError];
    - [Unreadable e]: the file is there and reading it raises [e], an
      exception of another class: [UnicodeDecodeError] when its bytes are
      not text in the encoding of [open], [RecursionError] when its
      document is nested deeper than the interpreter allows;
    - [Holds data]: the file holds the JSON form of a mapping of records,
      as [save_data] writes it, and [json.load] returns that mapping.
    A file with a JSON document of another shape, which [json.load] would
    return as it is, is not among these states. *)
Inductive file_state :=
  | Missing
  | NotJson
  | Unreadable (e : exn)
  | Holds (data : snapshot).

Inductive level := INFO | WARNING | ERROR.

(** Side effects, in the order in which they happen: a line of the log,
    [requests.get], [requests.post] with the payload [{"embeds": embeds}],
    [open(path, "r")], [open(path, "w")] followed by [json.dump] of
    [data], and an [await asyncio.sleep(secs)] that has elapsed. *)
Inductive event :=
  | Log (lvl : level) (msg : string)
  | HttpGet (url : string)
  | HttpPost (url : string) (embeds : list embed)
  | FileRead (path : string)
  | FileWrite (path : string) (data : snapshot)
  | Slept (secs : Z).

Record world := World {
  file : file_state;
  trace : list event
}.

(** What [requests.get] gives: an exception of the [requests] package, or
    a response with its status, its text and what [response.json()]
    returns or raises. *)
Record response := {
  status_code : Z;
  text : string;
  json : result Body
}.

Inductive get_result :=
  | GetRaises (msg : string)
  | GetReturns (r : response).

Inductive post_result :=
  | PostRaises (msg : string)
  | PostReturns (status : Z) (body : string).

(** What writing the snapshot file does: it succeeds, [open] fails (the
    file keeps its content), or [json.dump] fails after [open] has
    truncated the file (the file is left with a document cut short,
    which is not JSON). *)
Inductive write_result :=
  | WriteOk
  | OpenFails (msg : string)
  | DumpFails (msg : string).

(** The behaviour of the surroundings.  Each answer is indexed by the
    number of side effects that happened before the call. *)
Class Outside := {
  api : nat → get_result;
  webhook : nat → post_result;
  disk : nat → write_result
}.

Definition emit (e : event) (w : world) : world :=
  {| file := file w; trace := trace w ++ [e] |}.

Definition set_file (f : file_state) (w : world) : world :=
  {| file := f; trace := trace w |}.

Definition now (w : world) : nat := length (trace w).

(** Effectful code that returns or raises. *)
Definition io (A : Type) : Type := world → result A * world.

Definition ret {A} (a : A) : io A := λ w, (Ok a, w).
Definition bind {A B} (m : io A) (k : A → io B) : io B :=
  λ w, match m w with
       | (Ok a, w') => k a w'
       | (Raise e, w') => (Raise e, w')
       end.
Definition lift {A} (r : result A) : io A := λ w, (r, w).
Definition effect (f : world → world) : io unit := λ w, (Ok tt, f w).

Notation "'let*' x ':=' m 'in' k" := (bind m (λ x, k))
  (at level 10, x name, m at level 100, k at level 200).
Notation "m ';;' k" := (bind m (λ _, k))
  (at level 100, k at level 200, right associativity).

Definition logging (lvl : level) (msg : string) : world → world := emit (Log lvl msg).

(** A coroutine of this program: the code it runs up to its one [await],
    and the delay it awaits before it finishes. *)
Record coroutine := {
  until_await : world → world;
  awaited : Z
}.

(** [await asyncio.gather] over [tasks].  The event loop is cooperative
    and single-threaded: it starts the tasks in order and runs each up to
    its [await] (the POST of [send_to_discord] is a blocking call made
    before the task's only [await]); the sleeps then elapse in the same
    order, and [gather] returns when all tasks have finished. *)
Definition gather (tasks : list coroutine) (w : world) : world :=
  let w := foldl (λ w t, until_await t w) w tasks in
  foldl (λ w t, emit (Slept (awaited t)) w) w tasks.

Section Program.
Context {lib : DatetimeLib} {out : Outside}.

(** Lines 23-24: [open] and [json.load] on the snapshot file. *)
Definition open_and_load (f : file_state) : result snapshot :=
  match f with
  | Missing =>
      Raise (FileNotFoundError
               "[Errno 2] No such file or directory: 'old_shop_data.json'")
  | NotJson => Raise (JSONDecodeError "Expecting value: line 1 column 1 (char 0)")
  | Unreadable e => Raise e
  | Holds data => Ok data
  end.

Definition read_old_data : io snapshot :=
  λ w,
    let w := emit (FileRead SNAPSHOT_PATH) w in
    match open_and_load (file w) with
    | Ok data => (Ok data, w)
    | Raise e =>
        if is_FileNotFoundError e || is_JSONDecodeError e
        then (Ok ∅, logging WARNING
                      "No previous shop data found or JSON is corrupt. Creating a new file." w)
        else (Raise e, w)
    end.

Definition save_data (data : snapshot) (w : world) : world :=
  let w' := emit (FileWrite SNAPSHOT_PATH data) w in
  match disk (now w) with
  | WriteOk =>
      logging INFO "Updated shop data saved successfully." (set_file (Holds data) w')
  | OpenFails e =>
      logging ERROR ("Failed to save shop data: " +:+ e) w'
  | DumpFails e =>
      logging ERROR ("Failed to save shop data: " +:+ e) (set_file NotJson w')
  end.

Definition send_to_discord (embed_dict : embed) : coroutine :=
  {| until_await := λ w,
       let payload := [embed_dict] in
       let w' := emit (HttpPost WEBHOOK_URL payload) w in
       match webhook (now w) with
       | PostReturns status body =>
           if bool_decide (status = 204)
           then logging INFO "Message sent successfully to Discord webhook." w'
           else logging ERROR
                  ("Failed to send message: " +:+ str status +:+ " - " +:+ body) w'
       | PostRaises e =>
           logging ERROR ("Error sending data to Discord: " +:+ e) w'
       end;
     awaited := 1 |}.

Definition requests_get (url : string) : io response :=
  λ w,
    let w' := emit (HttpGet url) w in
    match api (now w) with
    | GetReturns r => (Ok r, w')
    | GetRaises e => (Raise (RequestException e), w')
    end.

(** One turn of the [for section in sections] loop (lines 142-168). *)
Definition loop_body (old_data : snapshot) (section : RawSection)
    (st : snapshot * list coroutine) : io (snapshot * list coroutine) :=
  let '(new_data, tasks) := st in
  let section_id := default "N/A" (sectionID section) in
  let display_name := default "N/A" (displayName section) in
  let new_section := new_section_of section in
  let new_data := <[section_id := to_dict new_section]> new_data in
  let old_section := default ∅ (old_data !! section_id) in
  if section_changed old_section (to_dict new_section) then
    effect (logging INFO ("New or updated section detected: " +:+ display_name
                          +:+ " (ID: " +:+ section_id +:+ ")")) ;;
    let* embed_dict := lift (create_embed_for_section section new_section) in
    ret (new_data, tasks ++ [send_to_discord embed_dict])
  else ret (new_data, tasks).

Fixpoint for_sections (old_data : snapshot) (sections : list RawSection)
    (st : snapshot * list coroutine) : io (snapshot * list coroutine) :=
  match sections with
  | [] => ret st
  | section :: rest =>
      let* st := loop_body old_data section st in
      for_sections old_data rest st
  end.

(** The [try] block of [process_shop_data] (lines 128-177). *)
Definition try_block : io unit :=
  let* response := requests_get API_URL in
  if bool_decide (status_code response ≠ 200) then
    effect (logging ERROR ("Failed to fetch data: " +:+ str (status_code response)
                           +:+ " - " +:+ text response))
  else
    let* data := lift (json response) in
    let sections := default [] (sections (default no_shop_data (shopData data))) in
    let* old_data := read_old_data in
    let new_data : snapshot := ∅ in
    effect (logging INFO ("Processing " +:+ str (Z.of_nat (length sections))
                          +:+ " shop sections...")) ;;
    let tasks : list coroutine := [] in
    let* st := for_sections old_data sections (new_data, tasks) in
    let new_data := st.1 in
    let tasks := st.2 in
    (match tasks with
     | [] => ret tt
     | _ => effect (gather tasks)
     end) ;;
    if bool_decide (old_data ≠ new_data) then
      effect (logging INFO "New shop data detected, updating old data file...") ;;
      effect (save_data new_data)
    else
      effect (logging INFO "No changes detected in shop data.").

(** The [except] clauses (lines 179-184): the first clause whose class
    the exception is an instance of handles it. *)
Definition except (e : exn) : world → world :=
  if is_RequestException e then
    logging ERROR ("Error fetching Fortnite shop data: " +:+ exn_str e)
  else if is_JSONDecodeError e then
    logging ERROR "Failed to decode JSON response."
  else
    logging ERROR ("Unexpected error: " +:+ exn_str e).

Definition process_shop_data (w : world) : world :=
  let w := logging INFO "Fetching Fortnite shop data..." w in
  match try_block w with
  | (Ok _, w') => w'
  | (Raise e, w') => except e w'
  end.

(** [main_loop], run for [n] turns of its [while True]. *)
Fixpoint while_true (n : nat) (w : world) : world :=
  match n with
  | O => w
  | S n =>
      let w := process_shop_data w in
      let w := logging INFO ("Sleeping for " +:+ str CHECK_INTERVAL
                             +:+ " seconds before next check...") w in
      let w := emit (Slept CHECK_INTERVAL) w in
      while_true n w
  end.

Definition main_loop (n : nat) (w : world) : world :=
  while_true n (logging INFO "Logged in as Fortnite shop checker bot." w).

End Program.

(* ===================================================================== *)
(** ** Reading a cycle

    Vocabulary for the statements below: the side effects of one call of
    [process_shop_data], the sections it announces, the mapping it builds. *)
(* ===================================================================== *)

Definition is_log (e : event) : bool :=
  match e with Log _ _ => true | _ => false end.
Definition is_post (e : event) : bool :=
  match e with HttpPost _ _ => true | _ => false end.
Definition is_write (e : event) : bool :=
  match e with FileWrite _ _ => true | _ => false end.
Definition is_sleep (e : event) : bool :=
  match e with Slept _ => true | _ => false end.

(** Events that neither dispatch a message nor touch the snapshot file's
    content: log lines, the GET, the read of the file. *)
Definition is_quiet (e : event) : bool :=
  match e with
  | Log _ _ | HttpGet _ | FileRead _ => true
  | HttpPost _ _ | FileWrite _ _ | Slept _ => false
  end.

(** The first side effect of every cycle. *)
Definition fetching : event := Log INFO "Fetching Fortnite shop data...".

(** The world after further side effects that leave the file alone. *)
Definition extend (w : world) (evs : list event) : world :=
  {| file := file w; trace := trace w ++ evs |}.

(** The number of events of one kind in a stretch of the trace. *)
Definition count (p : event → bool) (evs : list event) : nat :=
  length (filter (λ e, p e = true) evs).

(** [section.get("sectionID", "N/A")] *)
Definition section_id_of (section : RawSection) : string :=
  default "N/A" (sectionID section).

(** The sections list of a response body:
    [data.get("shopData", {}).get("sections", [])]. *)
Definition sections_of (data : Body) : list RawSection :=
  default [] (sections (default no_shop_data (shopData data))).

(** The exceptions that [read_old_data] handles itself (line 25). *)
Definition caught_by_load (e : exn) : bool :=
  is_FileNotFoundError e || is_JSONDecodeError e.

(** Whether [read_old_data] returns for a state of the file, and what it
    returns then (the empty mapping stands in where it raises). *)
Definition loads (f : file_state) : bool :=
  match open_and_load f with
  | Ok _ => true
  | Raise e => caught_by_load e
  end.

Definition loaded (f : file_state) : snapshot :=
  match open_and_load f with
  | Ok data => data
  | Raise _ => ∅
  end.

(** The line that ends a cycle in which [e] was raised. *)
Definition failure_line (e : exn) : event :=
  Log ERROR (if is_RequestException e
             then "Error fetching Fortnite shop data: " +:+ exn_str e
             else if is_JSONDecodeError e
                  then "Failed to decode JSON response."
                  else "Unexpected error: " +:+ exn_str e).

(** The value of the [**Section ID**] field of a message. *)
Definition embed_section_id (e : embed) : option string :=
  value_of <$> (fields e !! 1%nat).

(** The mapping the loop builds: each section stored under its identifier,
    a later section replacing an earlier one with the same identifier. *)
Definition store_section (new_data : snapshot) (section : RawSection) : snapshot :=
  <[section_id_of section := to_dict (new_section_of section)]> new_data.

Definition new_data_of (sections : list RawSection) : snapshot :=
  foldl store_section ∅ sections.

(** The sections the per-section comparison marks as changed, in order. *)
Definition is_changed (old_data : snapshot) (section : RawSection) : bool :=
  section_changed (old_section_of old_data (section_id_of section))
                  (to_dict (new_section_of section)).

Definition changed_sections (old_data : snapshot) (sections : list RawSection)
    : list RawSection :=
  filter (λ section, is_changed old_data section = true) sections.

Definition detected (section : RawSection) : event :=
  Log INFO ("New or updated section detected: " +:+ default "N/A" (displayName section)
            +:+ " (ID: " +:+ section_id_of section +:+ ")").

(** A start date of a rank entry that the program keeps: present and
    not empty. *)
Definition kept_date (rank : StackRank) (d : string) : Prop :=
  startDate rank = Some d ∧ d ≠ "".

(** The rank entries of a section: [metadata.get("stackRanks", [])]. *)
Definition ranks_of (section : RawSection) : list StackRank :=
  default [] (stackRanks (default no_metadata (metadata section))).

(** The start dates of a list of rank entries, in the words of the
    specification: those present and non-empty, in feed order. *)
Definition spec_dates (ranks : list StackRank) : list string :=
  ranks ≫= (λ rank,
    match startDate rank with
    | Some d => if decide (d = "") then [] else [d]
    | None => []
    end).

(** The field names of a message, in the words of the specification. *)
Definition spec_field_names (has_category has_billboard : bool) : list string :=
  ["**Display Name**"; "**Section ID**"]
  ++ [if has_category then "**Category**" else "**Background**"]
  ++ (if has_category then ["**Background**"] else [])
  ++ ["**Group Count**"]
  ++ (if has_billboard then ["**Billboard**"] else [])
  ++ ["**Context(s)**"; "**Possible Release Dates**"].

Section Reading.
Context {lib : DatetimeLib} {out : Outside}.

(** The side effects of the cycle started in [w]. *)
Definition cycle_events (w : world) : list event :=
  drop (now w) (trace (process_shop_data w)).

(** The GET of the cycle started in [w] is answered with status 200
    and a body that parses to [data]. *)
Definition feed_serves (w : world) (data : Body) : Prop :=
  ∃ r, api (S (now w)) = GetReturns r ∧ status_code r = 200 ∧ json r = Ok data.

(** The messages for a list of sections, or the first exception. *)
Definition embeds_of (sections : list RawSection) : result (list embed) :=
  for_each (λ section, create_embed_for_section section (new_section_of section))
           sections.

(** The log line that follows a POST. *)
Definition post_log (r : post_result) : event :=
  match r with
  | PostReturns status body =>
      if bool_decide (status = 204)
      then Log INFO "Message sent successfully to Discord webhook."
      else Log ERROR ("Failed to send message: " +:+ str status +:+ " - " +:+ body)
  | PostRaises e => Log ERROR ("Error sending data to Discord: " +:+ e)
  end.

(** The POSTs of the tasks started at time [k], with their log lines. *)
Fixpoint post_events (k : nat) (embeds : list embed) : list event :=
  match embeds with
  | [] => []
  | e :: es =>
      HttpPost WEBHOOK_URL [e] :: post_log (webhook k) :: post_events (S (S k)) es
  end.

(** What reading the snapshot file adds to the trace. *)
Definition read_events (f : file_state) : list event :=
  match open_and_load f with
  | Ok _ => [FileRead SNAPSHOT_PATH]
  | Raise e =>
      if caught_by_load e
      then [FileRead SNAPSHOT_PATH;
            Log WARNING
              "No previous shop data found or JSON is corrupt. Creating a new file."]
      else [FileRead SNAPSHOT_PATH]
  end.

(** What [save_data] adds to the trace when called at time [k], and
    what it leaves in the file. *)
Definition save_events (k : nat) (data : snapshot) : list event :=
  [FileWrite SNAPSHOT_PATH data;
   match disk k with
   | WriteOk => Log INFO "Updated shop data saved successfully."
   | OpenFails e | DumpFails e => Log ERROR ("Failed to save shop data: " +:+ e)
   end].

Definition saved_file (k : nat) (data : snapshot) (f : file_state) : file_state :=
  match disk k with
  | WriteOk => Holds data
  | OpenFails _ => f
  | DumpFails _ => NotJson
  end.

(** The side effects of a cycle that runs to its end, in three
    stretches: up to the end of the loop over the sections, the
    dispatch of the messages, and the decision about the file.  [f] is
    the file at the start, [k] the time at which a stretch starts. *)
Definition before_dispatch (f : file_state) (secs : list RawSection) : list event :=
  [fetching; HttpGet API_URL]
  ++ read_events f
  ++ [Log INFO ("Processing " +:+ str (Z.of_nat (length secs)) +:+ " shop sections...")]
  ++ (detected <$> changed_sections (loaded f) secs).

Definition dispatch (k : nat) (embeds : list embed) : list event :=
  post_events k embeds ++ replicate (length embeds) (Slept 1).

Definition after_dispatch (k : nat) (old_data new_data : snapshot) : list event :=
  if bool_decide (old_data ≠ new_data)
  then Log INFO "New shop data detected, updating old data file..."
       :: save_events (S k) new_data
  else [Log INFO "No changes detected in shop data."].

Definition completed_cycle (w : world) (secs : list RawSection) (embeds : list embed)
    : list event :=
  let pre := before_dispatch (file w) secs in
  let mid := dispatch (now w + length pre) embeds in
  pre ++ mid
  ++ after_dispatch (now w + length pre + length mid) (loaded (file w)) (new_data_of secs).

Definition file_after_cycle (w : world) (secs : list RawSection) (embeds : list embed)
    : file_state :=
  let pre := before_dispatch (file w) secs in
  let mid := dispatch (now w + length pre) embeds in
  if bool_decide (loaded (file w) ≠ new_data_of secs)
  then saved_file (S (now w + length pre + length mid)) (new_data_of secs) (file w)
  else file w.

End Reading.

(* ===================================================================== *)
(** ** The two helpers that nothing calls

    [normalize_data] and [count_billboards] are defined in [main.py] and
    used nowhere; they are embedded here as they are written. *)
(* ===================================================================== *)

(** A byte that continues a character in UTF-8: [10xxxxxx]. *)
Definition is_continuation (c : ascii) : bool :=
  let n := N_of_ascii c in
  ((128 <=? n) && (n <? 192))%N.

(** Iteration over a [str]: its characters, each a [str] of length one.
    A character is a code point; in the UTF-8 text of this development
    it is a byte together with the continuation bytes that follow it. *)
Fixpoint chars (s : string) : list string :=
  match s with
  | EmptyString => []
  | String c rest =>
      match rest with
      | String c' _ =>
          if is_continuation c'
          then match chars rest with
               | x :: xs => String c x :: xs
               | [] => [String c EmptyString]
               end
          else String c EmptyString :: chars rest
      | EmptyString => [String c EmptyString]
      end
  end.

(** [iter(v)] on a value of a record: a list gives its elements, a [str]
    its characters; [None] and an [int] are not iterable ([TypeError],
    rendered as [None]). *)
Definition iterate (v : value) : option (list string) :=
  match v with
  | VList l => Some l
  | VStr s => Some (chars s)
  | VNone | VInt _ => None
  end.

(** The body of the loop of [normalize_data] (lines 104-107) on one
    record; [None] when [set] or [sorted] raises [TypeError]. *)
Definition normalize_section (section : record) : option record :=
  section ← match section !! "contexts" with
            | Some v =>
                xs ← iterate v;
                Some (<["contexts" := VList (sorted (iter_set (set xs)))]> section)
            | None => Some section
            end;
  match section !! "release_dates" with
  | Some v =>
      xs ← iterate v;
      Some (<["release_dates" := VList (sorted xs)]> section)
  | None => Some section
  end.

(** [normalize_data]: every record is rewritten in place and the mapping
    is returned; the call raises [TypeError] ([None]) when one record
    does. *)
Definition normalize_data (data : snapshot) : option snapshot :=
  if bool_decide (map_Forall (λ _ section, is_Some (normalize_section section)) data)
  then Some (omap normalize_section data)
  else None.

(** The offer groups of a section:
    [section.get("metadata", {}).get("offerGroups", [])]. *)
Definition groups_of (s : RawSection) : list OfferGroup :=
  default [] (offerGroups (default no_metadata (metadata s))).

(** [count_billboards(data)], where [data] is the object under
    [shopData].  A section without [sectionID] is counted under the key
    [None]. *)
Definition count_billboards (data : ShopData) : gmap (option string) Z :=
  let sections := default [] (sections data) in
  foldl (λ billboard_counts section,
           let section_id := sectionID section in
           let offer_groups :=
             default [] (offerGroups (default no_metadata (metadata section))) in
           let billboard_count := billboards offer_groups in
           <[section_id := billboard_count]> billboard_counts)
        ∅ sections.

(* ===================================================================== *)
(** ** More vocabulary for traces *)
(* ===================================================================== *)

Definition is_get (e : event) : bool :=
  match e with HttpGet _ => true | _ => false end.

(** The sleep between two turns of the main loop. *)
Definition is_pause (e : event) : bool :=
  match e with Slept secs => bool_decide (secs = CHECK_INTERVAL) | _ => false end.

(** The POSTs of a stretch of the trace, in order. *)
Definition posts_of (evs : list event) : list event :=
  filter (λ e, is_post e = true) evs.

(** The POST that carries one message. *)
Definition post_of (e : embed) : event := HttpPost WEBHOOK_URL [e].

(** The last section of the feed with a given identifier. *)
Definition last_with_id (sid : string) (secs : list RawSection) : option RawSection :=
  last (filter (λ s, section_id_of s = sid) secs).

(** The record stored for a section. *)
Definition record_of (section : RawSection) : record :=
  to_dict (new_section_of section).

Section ReadingTurns.
Context {lib : DatetimeLib} {out : Outside}.

(** The side effects of [n] turns of the main loop started in [w]. *)
Definition turn_events (n : nat) (w : world) : list event :=
  drop (now w) (trace (while_true n w)).

End ReadingTurns.

(* ===================================================================== *)
(** ** Sample data

    A small feed, a small [datetime] library and a few surroundings, used
    to run the definitions above on concrete inputs. *)
(* ===================================================================== *)

Module Sample.

(** A [datetime] library that knows three dates: two of 2024, given
    here by their POSIX time, and the first instant of year 1 without
    an offset, which parses and has no POSIX time.  Any other text is
    rejected. *)
Inductive sample_datetime :=
  | Aware (posix : Z)
  | NaiveYearOne.

Definition three_dates (s : string) : result sample_datetime :=
  if bool_decide (s = "2024-05-01T00:00:00+00:00") then Ok (Aware 1714521600)
  else if bool_decide (s = "2024-06-01T00:00:00+00:00") then Ok (Aware 1717200000)
  else if bool_decide (s = "0001-01-01T00:00:00") then Ok NaiveYearOne
  else Raise (ValueError ("Invalid isoformat string: '" +:+ s +:+ "'")).

Definition sample_timestamp (dt : sample_datetime) : result Z :=
  match dt with
  | Aware posix => Ok posix
  | NaiveYearOne => Raise (ValueError "year 0 is out of range")
  end.

Definition lib : DatetimeLib :=
  {| datetime := sample_datetime; fromisoformat := three_dates;
     timestamp := sample_timestamp |}.

Definition featured : RawSection :=
  {| sectionID := Some "Featured1";
     displayName := Some "Featured";
     category := Some "Featured";
     metadata := Some
       {| background := Some {| customTexture := Some "http://x/y.png" |};
          offerGroups := Some [ {| displayType := Some "billboard" |};
                                {| displayType := Some "billboard" |};
                                {| displayType := None |} ];
          stackRanks := Some [ {| context := Some "B";
                                  startDate := Some "2024-05-01T00:00:00+00:00" |};
                               {| context := Some "A"; startDate := None |};
                               {| context := Some "B"; startDate := Some "" |} ] |} |}.

(** The same section a month later: only its start date differs. *)
Definition featured_later : RawSection :=
  {| sectionID := Some "Featured1";
     displayName := Some "Featured";
     category := Some "Featured";
     metadata := Some
       {| background := Some {| customTexture := Some "http://x/y.png" |};
          offerGroups := Some [ {| displayType := Some "billboard" |};
                                {| displayType := Some "billboard" |};
                                {| displayType := None |} ];
          stackRanks := Some [ {| context := Some "B";
                                  startDate := Some "2024-06-01T00:00:00+00:00" |};
                               {| context := Some "A"; startDate := None |};
                               {| context := Some "B"; startDate := Some "" |} ] |} |}.

(** A section with nothing but an identifier. *)
Definition bare : RawSection :=
  {| sectionID := Some "Bare"; displayName := None; category := None;
     metadata := None |}.

(** A section whose start date is not a date. *)
Definition undated : RawSection :=
  {| sectionID := Some "Soon"; displayName := Some "Soon"; category := None;
     metadata := Some
       {| background := None; offerGroups := None;
          stackRanks := Some [ {| context := None;
                                  startDate := Some "next week" |} ] |} |}.

(** A section whose start date parses and has no POSIX time. *)
Definition ancient : RawSection :=
  {| sectionID := Some "Ancient"; displayName := Some "Ancient"; category := None;
     metadata := Some
       {| background := None; offerGroups := None;
          stackRanks := Some [ {| context := None;
                                  startDate := Some "0001-01-01T00:00:00" |} ] |} |}.

Definition body_of (ss : list RawSection) : Body :=
  {| shopData := Some {| sections := Some ss |} |}.

(** Surroundings in which the feed answers 200 with the given body, the
    webhook accepts every message and the disk works. *)
Definition serving (data : Body) : Outside :=
  {| api := λ _, GetReturns {| status_code := 200; text := "{...}"; json := Ok data |};
     webhook := λ _, PostReturns 204 "";
     disk := λ _, WriteOk |}.

(** Surroundings in which the feed answers 500. *)
Definition failing : Outside :=
  {| api := λ _, GetReturns {| status_code := 500; text := "Internal Server Error";
                               json := Raise (JSONDecodeError "Expecting value") |};
     webhook := λ _, PostReturns 204 "";
     disk := λ _, WriteOk |}.

(** The response of [failing]. *)
Definition error_500 : response :=
  {| status_code := 500; text := "Internal Server Error";
     json := Raise (JSONDecodeError "Expecting value") |}.

(** A section that reuses the identifier of [featured] under another
    name. *)
Definition renamed : RawSection :=
  {| sectionID := Some "Featured1"; displayName := Some "Spotlight";
     category := None; metadata := None |}.

(** A body without the [shopData] key. *)
Definition empty_body : Body := {| shopData := None |}.

Definition fresh : world := World Missing [].

(** A world whose snapshot file holds text that is not JSON, and one
    whose snapshot file holds bytes that are not text. *)
Definition corrupt : world := World NotJson [].
Definition not_text : exn :=
  UnicodeDecodeError
    "'utf-8' codec can't decode byte 0xff in position 0: invalid start byte".
Definition binary : world := World (Unreadable not_text) [].

(** A world whose snapshot file holds the record of [featured]. *)
Definition seen_featured : world :=
  World (Holds (new_data_of [featured])) [].

End Sample.

(** More sample data: surroundings that fail, and a snapshot that is not
    in normal form. *)
Module MoreSamples.
Import Sample.

(** Surroundings in which the feed answers 200 with the given body, the
    webhook rejects every message and the snapshot file cannot be
    opened for writing. *)
Definition read_only (data : Body) : Outside :=
  {| api := λ _, GetReturns {| status_code := 200; text := "{...}"; json := Ok data |};
     webhook := λ _, PostReturns 429 "rate limited";
     disk := λ _, OpenFails "Permission denied" |}.

(** Surroundings like [serving], but the webhook answers 500 to every
    message. *)
Definition rejecting (data : Body) : Outside :=
  {| api := λ _, GetReturns {| status_code := 200; text := "{...}"; json := Ok data |};
     webhook := λ _, PostReturns 500 "Internal Server Error";
     disk := λ _, WriteOk |}.

(** Surroundings without a network. *)
Definition offline : Outside :=
  {| api := λ _, GetRaises "Connection refused";
     webhook := λ _, PostRaises "Connection refused";
     disk := λ _, WriteOk |}.


(** The same answer as a version of requests before 2.27 reports it. *)
Definition html_page_old : response :=
  {| status_code := 200; text := "<html>";
     json := Raise (JSONDecodeError "Expecting value: line 1 column 1 (char 0)") |}.


(** The section [featured] with its offer groups and rank entries listed
    in another order. *)
Definition featured_groups : list OfferGroup :=
  [ {| displayType := Some "billboard" |}; {| displayType := Some "billboard" |};
    {| displayType := None |} ].
Definition featured_ranks : list StackRank :=
  [ {| context := Some "B"; startDate := Some "2024-05-01T00:00:00+00:00" |};
    {| context := Some "A"; startDate := None |};
    {| context := Some "B"; startDate := Some "" |} ].

(** A snapshot whose one record has its lists unsorted, its release
    dates given as text, and one more key. *)
Definition messy : snapshot :=
  {[ "X" := <["contexts" := VList ["b"; "a"; "b"]]>
            (<["release_dates" := VStr "ba"]>
            (<["group_count" := VInt 1]> ∅)) ]}.

(** A snapshot with a record on which [normalize_data] raises. *)
Definition broken : snapshot :=
  {[ "X" := <["contexts" := VNone]> ∅ ]}.

End MoreSamples.

(* ===================================================================== *)
(** ** The order on strings and [sorted] *)
(* ===================================================================== *)

Section StringOrder.

Lemma ascii_compare_refl (a : ascii) : Ascii.compare a a = Eq.
Proof. unfold Ascii.compare. apply N.compare_refl. Qed.

Lemma string_compare_refl (s : string) : String.compare s s = Eq.
Proof. induction s as [|a s IH]; simpl; [done|]. by rewrite ascii_compare_refl. Qed.

Lemma ascii_compare_trans (a b c : ascii) (o : comparison) :
  Ascii.compare a b = o → Ascii.compare b c = o → Ascii.compare a c = o.
Proof.
  unfold Ascii.compare. destruct o; intros Hab Hbc.
  - apply N.compare_eq_iff in Hab, Hbc. apply N.compare_eq_iff. congruence.
  - pose proof (proj1 (N.compare_lt_iff _ _) Hab).
    pose proof (proj1 (N.compare_lt_iff _ _) Hbc).
    apply N.compare_lt_iff. lia.
  - pose proof (proj1 (N.compare_gt_iff _ _) Hab).
    pose proof (proj1 (N.compare_gt_iff _ _) Hbc).
    apply N.compare_gt_iff. lia.
Qed.

Lemma string_compare_lt_trans (s1 s2 s3 : string) :
  String.compare s1 s2 = Lt → String.compare s2 s3 = Lt → String.compare s1 s3 = Lt.
Proof.
  revert s2 s3. induction s1 as [|a s1 IH]; intros [|b s2] [|c s3]; simpl; try done.
  destruct (Ascii.compare a b) eqn:Hab; try done;
    destruct (Ascii.compare b c) eqn:Hbc; try done; intros H12 H23.
  - apply Ascii.compare_eq_iff in Hab, Hbc. subst.
    rewrite ascii_compare_refl. eauto.
  - apply Ascii.compare_eq_iff in Hab. subst. by rewrite Hbc.
  - apply Ascii.compare_eq_iff in Hbc. subst. by rewrite Hab.
  - by rewrite (ascii_compare_trans a b c Lt).
Qed.

Lemma str_le_alt (s1 s2 : string) : str_le s1 s2 ↔ s1 = s2 ∨ str_lt s1 s2.
Proof.
  unfold str_le, str_lt, String.leb, String.ltb.
  destruct (String.compare s1 s2) eqn:Hc; split.
  - intros _. left. by apply String.compare_eq_iff.
  - done.
  - intros _. by right.
  - done.
  - done.
  - intros [->|?]; [|done]. by rewrite string_compare_refl in Hc.
Qed.

Global Instance str_lt_trans : Transitive str_lt.
Proof.
  intros s1 s2 s3. unfold str_lt, String.ltb. intros H12 H23.
  destruct (String.compare s1 s2) eqn:E12; try done.
  destruct (String.compare s2 s3) eqn:E23; try done.
  by rewrite (string_compare_lt_trans s1 s2 s3).
Qed.

Global Instance str_le_refl : Reflexive str_le.
Proof. intros s. apply str_le_alt. by left. Qed.

Global Instance str_le_trans : Transitive str_le.
Proof.
  intros s1 s2 s3. rewrite !str_le_alt. intros [->|H12] [->|H23]; auto.
  right. by trans s2.
Qed.

Global Instance str_le_total : Total str_le.
Proof. intros s1 s2. apply String.leb_total. Qed.

Global Instance str_le_antisymm : AntiSymm (=) str_le.
Proof. intros s1 s2. apply String.leb_antisym. Qed.

(** The order is the lexicographic one: the first character decides,
    and on equal first characters the rest does. *)
Lemma str_le_nil (s : string) : str_le "" s.
Proof. by destruct s. Qed.

Lemma str_le_cons (a b : ascii) (s t : string) :
  str_le (String a s) (String b t) ↔
  (nat_of_ascii a < nat_of_ascii b)%nat ∨ (a = b ∧ str_le s t).
Proof.
  unfold str_le, String.leb. simpl. unfold Ascii.compare.
  destruct (N.compare_spec (N_of_ascii a) (N_of_ascii b)) as [Heq|Hlt|Hgt].
  - assert (a = b) as ->.
    { rewrite <-(ascii_N_embedding a), <-(ascii_N_embedding b). by f_equal. }
    unfold nat_of_ascii. split; [by right|].
    intros [?|[_ ?]]; [lia|done].
  - unfold nat_of_ascii. split; [intros _; left; lia|done].
  - unfold nat_of_ascii. split; [done|]. intros [?|[-> _]]; lia.
Qed.

Lemma sorted_Sorted (xs : list string) : Sorted str_le (sorted xs).
Proof. apply (Sorted_merge_sort str_le). Qed.

Lemma sorted_Permutation (xs : list string) : sorted xs ≡ₚ xs.
Proof. apply merge_sort_Permutation. Qed.

(** The result of [sorted] does not depend on the order of its input. *)
Lemma sorted_unique (xs ys : list string) : xs ≡ₚ ys → sorted xs = sorted ys.
Proof.
  intros Hp. apply (Sorted_unique str_le); try apply sorted_Sorted.
  by rewrite !sorted_Permutation.
Qed.

End StringOrder.

(* ===================================================================== *)
(** ** Normalization *)
(* ===================================================================== *)

Section Normalization.

Lemma truthy_str_true (s : string) : truthy_str s = true ↔ s ≠ "".
Proof.
  unfold truthy_str. rewrite negb_true_iff. apply String.eqb_neq.
Qed.

Lemma truthy_true (o : option string) : truthy o = true ↔ ∃ s, o = Some s ∧ s ≠ "".
Proof.
  destruct o as [s|]; simpl.
  - fold (truthy_str s). rewrite truthy_str_true. split.
    + intros Hne. by exists s.
    + intros (s' & [= <-] & Hne). done.
  - split; [done|]. by intros (s & ? & _).
Qed.

(** The comprehension over start dates keeps what the specification
    describes, in feed order. *)
Lemma rank_dates_spec (ranks : list StackRank) : rank_dates ranks = spec_dates ranks.
Proof.
  unfold rank_dates, spec_dates.
  induction ranks as [|rank ranks IH]; [done|]. cbn [omap list_omap mbind list_bind].
  rewrite <-IH. destruct (startDate rank) as [d|] eqn:Hd; simpl; [|done].
  fold (truthy_str d). destruct (decide (d = "")) as [->|Hne]; [done|].
  apply truthy_str_true in Hne. by rewrite Hne.
Qed.

Lemma elem_of_spec_dates (ranks : list StackRank) (d : string) :
  d ∈ spec_dates ranks ↔ ∃ rank, rank ∈ ranks ∧ kept_date rank d.
Proof.
  unfold spec_dates, kept_date. rewrite list_elem_of_bind. split.
  - intros (rank & Hd & Hin). exists rank. split; [done|].
    destruct (startDate rank) as [d'|]; [|by apply elem_of_nil in Hd].
    destruct (decide (d' = "")); [by apply elem_of_nil in Hd|].
    apply list_elem_of_singleton in Hd. by subst.
  - intros (rank & Hin & Hd & Hne). exists rank. split; [|done].
    rewrite Hd. rewrite decide_False by done. by apply list_elem_of_singleton.
Qed.

Lemma contexts_of_section (section : RawSection) :
  contexts (new_section_of section)
  = sorted (iter_set (set (rank_contexts (ranks_of section)))).
Proof. reflexivity. Qed.

Lemma release_dates_of_section (section : RawSection) :
  release_dates (new_section_of section) = sorted (rank_dates (ranks_of section)).
Proof. reflexivity. Qed.

Lemma elem_of_release_dates (section : RawSection) (d : string) :
  d ∈ release_dates (new_section_of section)
  ↔ ∃ rank, rank ∈ ranks_of section ∧ kept_date rank d.
Proof.
  rewrite release_dates_of_section, sorted_Permutation, rank_dates_spec.
  apply elem_of_spec_dates.
Qed.

(** C4.  For every section of the feed, the record's contexts are
    sorted, free of duplicates and are exactly the context values of the
    section's rank entries, with ["Unknown"] for an entry without a
    context; its release dates are sorted and are, with multiplicity,
    exactly the start dates of the rank entries that are present and not
    empty.  A section without rank entries is one instance. *)
Theorem normalized_lists_sorted (section : RawSection) :
  let n := new_section_of section in
  let ranks := ranks_of section in
  (Sorted str_le (contexts n)
   ∧ NoDup (contexts n)
   ∧ ∀ c, c ∈ contexts n ↔ ∃ rank, rank ∈ ranks ∧ c = default "Unknown" (context rank))
  ∧ (Sorted str_le (release_dates n)
     ∧ release_dates n ≡ₚ spec_dates ranks).
Proof.
  intros n ranks. subst n ranks.
  rewrite contexts_of_section, release_dates_of_section. repeat split.
  - apply sorted_Sorted.
  - rewrite sorted_Permutation. apply NoDup_elements.
  - rewrite sorted_Permutation. unfold iter_set, set, rank_contexts.
    rewrite elem_of_elements, elem_of_list_to_set, list_elem_of_fmap.
    intros (rank & -> & Hin). eauto.
  - rewrite sorted_Permutation. unfold iter_set, set, rank_contexts.
    rewrite elem_of_elements, elem_of_list_to_set, list_elem_of_fmap.
    intros (rank & Hin & ->). eauto.
  - apply sorted_Sorted.
  - by rewrite sorted_Permutation, rank_dates_spec.
Qed.

(** Without rank entries both lists are empty. *)
Lemma normalized_lists_empty (section : RawSection) :
  ranks_of section = [] →
  contexts (new_section_of section) = [] ∧ release_dates (new_section_of section) = [].
Proof.
  intros Hr. rewrite contexts_of_section, release_dates_of_section, Hr.
  split; [|done]. unfold rank_contexts, set, iter_set. simpl.
  rewrite elements_empty. done.
Qed.

End Normalization.

(* ===================================================================== *)
(** ** The per-section comparison *)
(* ===================================================================== *)

Section Comparison.
Context {lib : DatetimeLib} {out : Outside}.

Lemma without_dates_lookup (d : record) (k : string) :
  without_dates d !! k = if decide (k = "release_dates") then None else d !! k.
Proof.
  unfold without_dates. rewrite map_lookup_filter.
  destruct (d !! k) as [v|] eqn:Hk; simpl.
  - destruct (decide (k = "release_dates")) as [->|Hne].
    + by rewrite option_guard_False by (simpl; auto).
    + by rewrite option_guard_True.
  - by destruct (decide (k = "release_dates")).
Qed.

(** The comprehension that drops the key is the removal of the key. *)
Lemma without_dates_delete (d : record) : without_dates d = delete "release_dates" d.
Proof.
  apply map_eq. intros k. rewrite without_dates_lookup.
  destruct (decide (k = "release_dates")) as [->|Hne].
  - by rewrite lookup_delete_eq.
  - by rewrite lookup_delete_ne.
Qed.

Lemma section_changed_false (old new : record) :
  section_changed old new = false ↔ without_dates old = without_dates new.
Proof.
  unfold section_changed. rewrite bool_decide_eq_false. split.
  - intros Hnn. by destruct (decide (without_dates old = without_dates new)).
  - intros Heq Hne. done.
Qed.

Lemma section_changed_true (old new : record) :
  section_changed old new = true ↔ without_dates old ≠ without_dates new.
Proof. unfold section_changed. apply bool_decide_eq_true. Qed.

Lemma to_dict_display_name (n : NormalizedSection) :
  to_dict n !! "display_name" = Some (VStr (display_name n)).
Proof. unfold to_dict. by rewrite lookup_insert_eq. Qed.

(** Two records with the same fields apart from the release dates have
    the same dictionary apart from that key. *)
Lemma to_dict_same_but_dates (n1 n2 : NormalizedSection) :
  display_name n1 = display_name n2 →
  new_category n1 = new_category n2 →
  background_url n1 = background_url n2 →
  group_count n1 = group_count n2 →
  billboard n1 = billboard n2 →
  contexts n1 = contexts n2 →
  ∀ k, k ≠ "release_dates" → to_dict n1 !! k = to_dict n2 !! k.
Proof.
  intros E1 E2 E3 E4 E5 E6 k Hk. unfold to_dict.
  rewrite E1, E2, E3, E4, E5, E6.
  repeat match goal with
    | |- <[?i := ?v]> _ !! k = <[?i := ?v]> _ !! k =>
        destruct (decide (i = k)) as [<-|?];
        [by rewrite !lookup_insert_eq | rewrite !(lookup_insert_ne _ i k) by done]
    end.
  rewrite !lookup_insert_ne by congruence. done.
Qed.

(** A section that compares as unchanged goes through the loop without
    a log line, a message or a task: only the new mapping receives its
    record. *)
Lemma loop_body_unchanged (old_data : snapshot) (s : RawSection)
    (st : snapshot * list coroutine) (w : world) :
  is_changed old_data s = false →
  loop_body old_data s st w = (Ok (store_section st.1 s, st.2), w).
Proof.
  intros Hsame. destruct st as [new_data tasks]. unfold loop_body.
  fold (section_id_of s). fold (old_section_of old_data (section_id_of s)).
  fold (is_changed old_data s). by rewrite Hsame.
Qed.

(** C1.  The comparison that decides whether a section is announced is
    true exactly when the two records differ once the release dates are
    removed from both; so two records that agree on every key but
    ["release_dates"] compare as unchanged, and for a section whose
    record compares as unchanged the loop builds no message and adds no
    task. *)
Theorem release_dates_are_ignored (old new : record) :
  (section_changed old new = true
   ↔ delete "release_dates" old ≠ delete "release_dates" new)
  ∧ ((∀ k, k ≠ "release_dates" → old !! k = new !! k)
     → section_changed old new = false)
  ∧ (∀ old_data s st w,
       old_section_of old_data (section_id_of s) = old →
       to_dict (new_section_of s) = new →
       section_changed old new = false →
       loop_body old_data s st w = (Ok (store_section st.1 s, st.2), w)).
Proof.
  split; [|split].
  - by rewrite section_changed_true, !without_dates_delete.
  - intros Hsame. apply section_changed_false, map_eq. intros k.
    rewrite !without_dates_lookup. case_decide; [done|]. by apply Hsame.
  - intros old_data s st w <- <- Hsame. by apply loop_body_unchanged.
Qed.

(** An absent prior entry compares as changed, whatever the record. *)
Lemma changed_against_nothing (new_section : NormalizedSection) :
  section_changed ∅ (to_dict new_section) = true.
Proof.
  apply section_changed_true. intros Heq.
  assert (without_dates (to_dict new_section) !! "display_name" = None) as Hl.
  { rewrite <-Heq, without_dates_lookup. by case_decide. }
  rewrite without_dates_lookup, to_dict_display_name in Hl. by case_decide.
Qed.

Lemma is_changed_absent (old_data : snapshot) (section : RawSection) :
  old_data !! section_id_of section = None → is_changed old_data section = true.
Proof.
  intros Habs. unfold is_changed, old_section_of. rewrite Habs. simpl.
  apply changed_against_nothing.
Qed.

End Comparison.

(* ===================================================================== *)
(** ** The cycle *)
(* ===================================================================== *)

Section Cycle.
Context {lib : DatetimeLib} {out : Outside}.

Lemma extend_nil (w : world) : extend w [] = w.
Proof. destruct w. unfold extend. simpl. by rewrite app_nil_r. Qed.

Lemma extend_extend (w : world) (evs1 evs2 : list event) :
  extend (extend w evs1) evs2 = extend w (evs1 ++ evs2).
Proof. unfold extend. simpl. by rewrite app_assoc. Qed.

Lemma now_extend (w : world) (evs : list event) :
  now (extend w evs) = (now w + length evs)%nat.
Proof. unfold now, extend. simpl. by rewrite length_app. Qed.

(** *** The loop over the sections *)

Lemma changed_sections_cons (old_data : snapshot) (s : RawSection) (secs : list RawSection) :
  changed_sections old_data (s :: secs)
  = if is_changed old_data s
    then s :: changed_sections old_data secs
    else changed_sections old_data secs.
Proof.
  unfold changed_sections. rewrite filter_cons.
  destruct (is_changed old_data s); by case_decide.
Qed.

Lemma for_sections_spec (old_data : snapshot) (secs : list RawSection)
    (new_data : snapshot) (tasks : list coroutine) (w : world) :
  match embeds_of (changed_sections old_data secs) with
  | Ok embeds =>
      for_sections old_data secs (new_data, tasks) w
      = (Ok (foldl store_section new_data secs, tasks ++ (send_to_discord <$> embeds)),
         extend w (detected <$> changed_sections old_data secs))
  | Raise e =>
      ∃ logs, for_sections old_data secs (new_data, tasks) w = (Raise e, extend w logs)
              ∧ Forall (λ ev, is_log ev = true) logs
  end.
Proof.
  revert new_data tasks w.
  induction secs as [|s secs IH]; intros new_data tasks w.
  - simpl. by rewrite app_nil_r, extend_nil.
  - rewrite changed_sections_cons.
    cbn [for_sections]. unfold bind at 1. unfold loop_body.
    fold (section_id_of s). fold (old_section_of old_data (section_id_of s)).
    fold (is_changed old_data s). fold (store_section new_data s).
    destruct (is_changed old_data s) eqn:Hch.
    + unfold embeds_of. cbn [for_each]. fold (embeds_of (changed_sections old_data secs)).
      unfold bind, effect, lift, ret.
      destruct (create_embed_for_section s (new_section_of s)) as [y|e] eqn:Hy.
      * specialize (IH (store_section new_data s) (tasks ++ [send_to_discord y])
                       (logging INFO
                          ("New or updated section detected: " +:+ default "N/A" (displayName s)
                           +:+ " (ID: " +:+ section_id_of s +:+ ")") w)).
        destruct (embeds_of (changed_sections old_data secs)) as [ys|e].
        -- rewrite IH. cbn [foldl fmap list_fmap]. rewrite <-app_assoc.
           f_equal. unfold extend, logging, emit. simpl. by rewrite <-app_assoc.
        -- destruct IH as (logs & -> & Hlogs).
           exists (detected s :: logs). split; [|by constructor].
           unfold extend, logging, emit. simpl. by rewrite <-app_assoc.
      * exists [detected s]. split; [done|]. by repeat constructor.
    + unfold ret. apply IH.
Qed.

(** *** The primitives *)

Lemma requests_get_returns (url : string) (w : world) (r : response) :
  api (now w) = GetReturns r → requests_get url w = (Ok r, extend w [HttpGet url]).
Proof. intros Hr. unfold requests_get. by rewrite Hr. Qed.

Lemma requests_get_raises (url : string) (w : world) (msg : string) :
  api (now w) = GetRaises msg →
  requests_get url w = (Raise (RequestException msg), extend w [HttpGet url]).
Proof. intros Hr. unfold requests_get. by rewrite Hr. Qed.

(** [read_old_data] returns what the file holds, returns the empty
    mapping with a warning on the two exceptions it handles, and lets
    any other exception through. *)
Lemma read_old_data_spec (w : world) :
  read_old_data w
  = (match open_and_load (file w) with
     | Ok data => Ok data
     | Raise e => if caught_by_load e then Ok ∅ else Raise e
     end,
     extend w (read_events (file w))).
Proof.
  unfold read_old_data, read_events, caught_by_load. simpl.
  destruct (open_and_load (file w)) as [data|e];
    [|destruct (is_FileNotFoundError e || is_JSONDecodeError e)];
    unfold extend, logging, emit; simpl; by rewrite <-?app_assoc.
Qed.

Lemma read_old_data_returns (w : world) :
  loads (file w) = true →
  read_old_data w = (Ok (loaded (file w)), extend w (read_events (file w))).
Proof.
  intros Hl. rewrite read_old_data_spec. unfold loads, loaded in *.
  destruct (open_and_load (file w)) as [data|e]; [done|]. by rewrite Hl.
Qed.

Lemma read_old_data_raises (w : world) :
  loads (file w) = false →
  ∃ e, open_and_load (file w) = Raise e
       ∧ caught_by_load e = false
       ∧ read_old_data w = (Raise e, extend w [FileRead SNAPSHOT_PATH]).
Proof.
  intros Hl. rewrite read_old_data_spec. unfold loads, read_events in *.
  destruct (open_and_load (file w)) as [data|e]; [done|].
  exists e. by rewrite Hl.
Qed.

(** Only a file that holds a mapping loads to a mapping with an entry. *)
Lemma loaded_entry_loads (f : file_state) (sid : string) :
  is_Some (loaded f !! sid) → loads f = true.
Proof.
  unfold loaded, loads. destruct (open_and_load f); [done|].
  rewrite lookup_empty. by intros [? ?].
Qed.


Lemma save_data_spec (data : snapshot) (w : world) :
  save_data data w
  = set_file (saved_file (now w) data (file w)) (extend w (save_events (now w) data)).
Proof.
  unfold save_data, saved_file, save_events.
  destruct (disk (now w)); unfold extend, logging, emit, set_file; simpl;
    by rewrite <-app_assoc.
Qed.

Lemma until_await_send (e : embed) (w : world) :
  until_await (send_to_discord e) w
  = extend w [HttpPost WEBHOOK_URL [e]; post_log (webhook (now w))].
Proof.
  unfold send_to_discord, post_log. simpl.
  destruct (webhook (now w)) as [msg|status body]; [|case_bool_decide];
    unfold extend, logging, emit; simpl; by rewrite <-app_assoc.
Qed.

Lemma start_tasks (embeds : list embed) (w : world) :
  foldl (λ w t, until_await t w) w (send_to_discord <$> embeds)
  = extend w (post_events (now w) embeds).
Proof.
  revert w. induction embeds as [|e embeds IH]; intros w.
  - simpl. by rewrite extend_nil.
  - cbn [fmap list_fmap foldl post_events]. fold (fmap send_to_discord embeds).
    rewrite until_await_send, IH, extend_extend, now_extend. simpl.
    by replace (now w + 2)%nat with (S (S (now w))) by lia.
Qed.

Lemma finish_tasks (embeds : list embed) (w : world) :
  foldl (λ w t, emit (Slept (awaited t)) w) w (send_to_discord <$> embeds)
  = extend w (replicate (length embeds) (Slept 1)).
Proof.
  revert w. induction embeds as [|e embeds IH]; intros w.
  - simpl. by rewrite extend_nil.
  - cbn [fmap list_fmap foldl length replicate]. fold (fmap send_to_discord embeds).
    rewrite IH. unfold extend, emit. simpl. by rewrite <-app_assoc.
Qed.

Lemma gather_spec (embeds : list embed) (w : world) :
  gather (send_to_discord <$> embeds) w = extend w (dispatch (now w) embeds).
Proof.
  unfold gather, dispatch. by rewrite start_tasks, finish_tasks, extend_extend.
Qed.

(** *** The five ways a cycle can go *)

Lemma now_logging (lvl : level) (msg : string) (w : world) :
  now (logging lvl msg w) = S (now w).
Proof. unfold now, logging, emit. simpl. rewrite length_app. simpl. lia. Qed.

(** The request itself fails. *)
Lemma cycle_get_raises (w : world) (msg : string) :
  api (S (now w)) = GetRaises msg →
  process_shop_data w
  = extend w [fetching; HttpGet API_URL;
              Log ERROR ("Error fetching Fortnite shop data: " +:+ msg)].
Proof.
  intros Hapi. unfold process_shop_data, try_block, bind.
  rewrite (requests_get_raises _ _ msg) by (by rewrite now_logging).
  unfold except, extend, logging, emit. simpl. by rewrite <-!app_assoc.
Qed.

(** What the [except] clauses add to the trace. *)
Lemma except_line (e : exn) (w : world) (evs : list event) :
  except e (extend w evs) = extend w (evs ++ [failure_line e]).
Proof.
  unfold except, failure_line.
  destruct (is_RequestException e); [|destruct (is_JSONDecodeError e)];
    unfold logging, emit, extend; simpl; by rewrite <-app_assoc.
Qed.

(** The feed answers with a status other than 200. *)
Lemma cycle_bad_status (w : world) (r : response) :
  api (S (now w)) = GetReturns r →
  status_code r ≠ 200 →
  process_shop_data w
  = extend w [fetching; HttpGet API_URL;
              Log ERROR ("Failed to fetch data: " +:+ str (status_code r)
                         +:+ " - " +:+ text r)].
Proof.
  intros Hapi Hst. unfold process_shop_data, try_block, bind.
  rewrite (requests_get_returns _ _ r) by (by rewrite now_logging).
  rewrite bool_decide_eq_true_2 by done.
  unfold effect, extend, logging, emit. simpl. by rewrite <-!app_assoc.
Qed.

(** The body of the answer is not JSON. *)
Lemma cycle_bad_body (w : world) (r : response) (e : exn) :
  api (S (now w)) = GetReturns r →
  status_code r = 200 →
  json r = Raise e →
  process_shop_data w = except e (extend w [fetching; HttpGet API_URL]).
Proof.
  intros Hapi Hst Hjs. unfold process_shop_data, try_block, bind.
  rewrite (requests_get_returns _ _ r) by (by rewrite now_logging).
  rewrite bool_decide_eq_false_2 by (intros Hne; by apply Hne).
  unfold lift. rewrite Hjs. f_equal.
  unfold extend, logging, emit. simpl. by rewrite <-!app_assoc.
Qed.

(** Reading the snapshot file raises. *)
Lemma cycle_load_error (w : world) (r : response) (data : Body) :
  api (S (now w)) = GetReturns r →
  status_code r = 200 →
  json r = Ok data →
  loads (file w) = false →
  ∃ e, open_and_load (file w) = Raise e
       ∧ caught_by_load e = false
       ∧ process_shop_data w
         = extend w [fetching; HttpGet API_URL; FileRead SNAPSHOT_PATH; failure_line e].
Proof.
  intros Hapi Hst Hjs Hl. unfold process_shop_data, try_block, bind.
  rewrite (requests_get_returns _ _ r) by (by rewrite now_logging).
  rewrite bool_decide_eq_false_2 by (intros Hne; by apply Hne).
  unfold lift. rewrite Hjs.
  match goal with
  | |- context [read_old_data ?w1] =>
      destruct (read_old_data_raises w1) as (e & He & Hc & ->); [exact Hl|]
  end.
  exists e. split; [exact He|]. split; [exact Hc|].
  rewrite extend_extend.
  assert (logging INFO "Fetching Fortnite shop data..." w = extend w [fetching]) as ->.
  { done. }
  rewrite extend_extend. apply except_line.
Qed.

(** Building a message raises. *)
Lemma cycle_format_error (w : world) (r : response) (data : Body) (e : exn) :
  api (S (now w)) = GetReturns r →
  status_code r = 200 →
  json r = Ok data →
  loads (file w) = true →
  embeds_of (changed_sections (loaded (file w)) (sections_of data)) = Raise e →
  ∃ logs, Forall (λ ev, is_log ev = true) logs
    ∧ process_shop_data w
      = except e (extend w ([fetching; HttpGet API_URL] ++ read_events (file w) ++ logs)).
Proof.
  intros Hapi Hst Hjs Hl Hemb. unfold process_shop_data, try_block, bind.
  rewrite (requests_get_returns _ _ r) by (by rewrite now_logging).
  rewrite bool_decide_eq_false_2 by (intros Hne; by apply Hne).
  unfold lift. rewrite Hjs. rewrite read_old_data_returns by exact Hl. unfold effect.
  fold (sections_of data).
  match goal with
  | |- context [for_sections ?o ?ss (?nd, ?ts) ?w1] =>
      pose proof (for_sections_spec o ss nd ts w1) as Hloop
  end.
  simpl file in *. rewrite Hemb in Hloop. destruct Hloop as (logs & -> & Hlogs).
  exists (Log INFO ("Processing " +:+ str (Z.of_nat (length (sections_of data)))
                    +:+ " shop sections...") :: logs).
  split; [by constructor|].
  f_equal. unfold extend, logging, emit. simpl. by rewrite <-!app_assoc.
Qed.

(** The cycle runs to its end. *)
Lemma cycle_completed (w : world) (r : response) (data : Body) (embeds : list embed) :
  api (S (now w)) = GetReturns r →
  status_code r = 200 →
  json r = Ok data →
  loads (file w) = true →
  embeds_of (changed_sections (loaded (file w)) (sections_of data)) = Ok embeds →
  process_shop_data w
  = set_file (file_after_cycle w (sections_of data) embeds)
             (extend w (completed_cycle w (sections_of data) embeds)).
Proof.
  intros Hapi Hst Hjs Hl Hemb. unfold process_shop_data, try_block, bind.
  rewrite (requests_get_returns _ _ r) by (by rewrite now_logging).
  rewrite bool_decide_eq_false_2 by (intros Hne; by apply Hne).
  unfold lift. rewrite Hjs. rewrite read_old_data_returns by exact Hl. unfold effect.
  fold (sections_of data).
  match goal with
  | |- context [for_sections ?o ?ss (?nd, ?ts) ?w1] =>
      pose proof (for_sections_spec o ss nd ts w1) as Hloop
  end.
  simpl file in *. rewrite Hemb in Hloop. rewrite Hloop. clear Hloop.
  cbn [fst snd app]. fold (new_data_of (sections_of data)).
  change (file (extend (logging INFO _ w) [HttpGet API_URL])) with (file w).
  set (secs := sections_of data).
  set (W1 := extend (logging INFO ("Processing " +:+ _) _) _).
  assert (W1 = extend w (before_dispatch (file w) secs)) as HW1.
  { unfold W1, before_dispatch, extend, logging, emit. simpl.
    by rewrite <-!app_assoc. }
  assert (match send_to_discord <$> embeds with
          | [] => ret ()
          | _ :: _ => λ w0 : world, (Ok (), gather (send_to_discord <$> embeds) w0)
          end W1 = (Ok (), extend W1 (dispatch (now W1) embeds))) as ->.
  { destruct embeds as [|e embeds'].
    - unfold ret, dispatch. simpl. by rewrite extend_nil.
    - by rewrite <-gather_spec. }
  assert (now W1 = (now w + length (before_dispatch (file w) secs))%nat) as HnW1.
  { by rewrite HW1, now_extend. }
  unfold file_after_cycle, completed_cycle, after_dispatch.
  rewrite HnW1. clearbody W1. subst W1.
  set (pre := before_dispatch (file w) secs).
  set (mid := dispatch (now w + length pre) embeds).
  case_bool_decide as Hdiff.
  - rewrite save_data_spec. rewrite now_logging, !now_extend.
    unfold logging, emit, extend, set_file. cbn [trace file]. f_equal.
    by rewrite <-!app_assoc.
  - unfold logging, emit, extend, set_file. cbn [trace file]. f_equal.
    by rewrite <-!app_assoc.
Qed.

End Cycle.

(* ===================================================================== *)
(** ** The message *)
(* ===================================================================== *)

Section Message.
Context {lib : DatetimeLib}.

Lemma for_each_is_ok {A B} (f : A → result B) (xs : list A) :
  is_ok (for_each f xs) = true ↔ ∀ x, x ∈ xs → is_ok (f x) = true.
Proof.
  induction xs as [|x xs IH]; simpl.
  - split; [|done]. intros _ x Hx. by apply elem_of_nil in Hx.
  - destruct (f x) as [y|e] eqn:Hfx; simpl.
    + destruct (for_each f xs) as [ys|e]; simpl in *.
      * split; [|done]. intros _ x' [->|Hin]%elem_of_cons.
        -- by rewrite Hfx.
        -- by apply IH.
      * split; [done|]. intros Hall. apply IH. intros x' Hx'.
        apply Hall. by right.
    + split; [done|]. intros Hall.
      specialize (Hall x (list_elem_of_here _ _)). by rewrite Hfx in Hall.
Qed.

(** A result of [for_each] lists the results element by element. *)
Lemma for_each_Ok {A B} (f : A → result B) (xs : list A) (ys : list B) :
  for_each f xs = Ok ys → Forall2 (λ x y, f x = Ok y) xs ys.
Proof.
  revert ys. induction xs as [|x xs IH]; simpl; intros ys Hys.
  - injection Hys as <-. constructor.
  - destruct (f x) as [y|e] eqn:Hfx; [|done].
    destruct (for_each f xs) as [ys'|e]; [|done].
    injection Hys as <-. constructor; [done|]. by apply IH.
Qed.

(** A time marker is built for a date exactly when the date parses
    and the parsed date has a POSIX time. *)
Lemma date_marker_is_ok (d : string) :
  is_ok (date_marker d) = true
  ↔ ∃ dt, fromisoformat d = Ok dt ∧ is_ok (timestamp dt) = true.
Proof.
  unfold date_marker, to_discord_timestamp.
  destruct (fromisoformat d) as [dt|e].
  - destruct (timestamp dt) as [ts|e] eqn:Hts; simpl.
    + split; [|done]. intros _. exists dt. by rewrite Hts.
    + split; [done|]. intros (dt' & [= <-] & Hok). by rewrite Hts in Hok.
  - split; [done|]. by intros (dt & ? & _).
Qed.

Lemma date_marker_rejected (d : string) :
  is_ok (fromisoformat d) = false → is_ok (date_marker d) = false.
Proof. unfold date_marker. by destruct (fromisoformat d). Qed.

Lemma release_dates_field_is_ok (dates : list string) :
  is_ok (release_dates_field dates) = true
  ↔ ∀ d, d ∈ dates → d ≠ "" → is_ok (date_marker d) = true.
Proof.
  unfold release_dates_field. destruct dates as [|d0 dates].
  - split; [|done]. intros _ d Hd. by apply elem_of_nil in Hd.
  - set (ds := d0 :: dates).
    trans (is_ok (for_each date_marker (filter (λ date, truthy_str date = true) ds)) = true).
    { by destruct (for_each date_marker _). }
    rewrite for_each_is_ok. split.
    + intros Hall d Hd Hne. apply Hall.
      apply list_elem_of_filter. split; [by apply truthy_str_true|done].
    + intros Hall d [Ht Hd]%list_elem_of_filter.
      apply Hall; [done|]. by apply truthy_str_true.
Qed.

(** Whether a message is built depends on the release dates only. *)
Lemma create_embed_is_ok (section : RawSection) (n : NormalizedSection) :
  is_ok (create_embed_for_section section n) = is_ok (release_dates_field (release_dates n)).
Proof.
  unfold create_embed_for_section. by destruct (release_dates_field (release_dates n)).
Qed.

(** The second field of a message carries the section identifier. *)
Lemma create_embed_section_id (section : RawSection) (n : NormalizedSection) (e : embed) :
  create_embed_for_section section n = Ok e →
  embed_section_id e = Some (section_id_of section).
Proof.
  unfold create_embed_for_section.
  destruct (release_dates_field (release_dates n)); [|done].
  intros [= <-]. by destruct (truthy (category section)).
Qed.

(** The category kept in the record is the one the message tests. *)
Lemma category_carried (section : RawSection) :
  is_Some (new_category (new_section_of section)) ↔ truthy (category section) = true.
Proof.
  unfold new_section_of. simpl.
  destruct (truthy (category section)) eqn:Ht.
  - split; [done|]. intros _. apply truthy_true in Ht as (s & -> & _). by eexists.
  - split; [|done]. by intros [? ?].
Qed.

(** C5.  A message is built exactly when a time marker can be made of
    every non-empty release date of the record, that is when
    [fromisoformat] accepts the date and [timestamp] returns on the
    result; when it is built, its
    field names are, in order: Display Name, Section ID, then Category
    if the section carries a category and Background otherwise, then a
    Background field of its own exactly when a category was present,
    Group Count, Billboard exactly when the billboard count is positive,
    Context(s) and Possible Release Dates; the last two hold
    ["No Context"] and ["No Release Dates"] when their lists are
    empty. *)
Theorem message_field_layout (section : RawSection) (n : NormalizedSection) :
  (is_ok (create_embed_for_section section n) = true
   ↔ ∀ d, d ∈ release_dates n → d ≠ "" → is_ok (date_marker d) = true)
  ∧ ∀ e, create_embed_for_section section n = Ok e →
      name <$> fields e
      = spec_field_names (truthy (category section)) (bool_decide (billboard n > 0))
      ∧ ∃ front c d,
          fields e = front ++ [Field "**Context(s)**" c false;
                               Field "**Possible Release Dates**" d false]
          ∧ (contexts n = [] → c = "No Context")
          ∧ (release_dates n = [] → d = "No Release Dates").
Proof.
  split.
  - rewrite create_embed_is_ok. apply release_dates_field_is_ok.
  - intros e. unfold create_embed_for_section.
    destruct (release_dates_field (release_dates n)) as [rd|err] eqn:Hrd; [|done].
    intros [= <-]. split.
    + by destruct (truthy (category section)), (bool_decide (billboard n > 0)).
    + destruct (truthy (category section)), (bool_decide (billboard n > 0));
        cbn [fields app];
        match goal with
        | |- ∃ front c d, ?l = _ ∧ _ =>
            exists (take (length l - 2) l); do 2 eexists;
            (split; [reflexivity|])
        end;
        (split; [by intros -> | intros Hnil; rewrite Hnil in Hrd; by injection Hrd as <-]).
Qed.

End Message.

(* ===================================================================== *)
(** ** Traces of a cycle *)
(* ===================================================================== *)

Section Traces.
Context {lib : DatetimeLib} {out : Outside}.

Lemma count_app (p : event → bool) (l1 l2 : list event) :
  count p (l1 ++ l2) = (count p l1 + count p l2)%nat.
Proof. unfold count. by rewrite filter_app, length_app. Qed.

Lemma count_cons (p : event → bool) (e : event) (l : list event) :
  count p (e :: l) = ((if p e then 1 else 0) + count p l)%nat.
Proof.
  unfold count. rewrite filter_cons. destruct (p e); by case_decide.
Qed.

Lemma count_zero (p : event → bool) (l : list event) :
  count p l = 0%nat ↔ ∀ e, e ∈ l → p e = false.
Proof.
  induction l as [|e l IH].
  - split; [|done]. intros _ e He. by apply elem_of_nil in He.
  - rewrite count_cons. destruct (p e) eqn:Hp.
    + split; [done|]. intros Hall.
      specialize (Hall e (list_elem_of_here _ _)). congruence.
    + simpl. rewrite IH. split.
      * intros Hall e' [->|Hin]%elem_of_cons; auto.
      * intros Hall e' Hin. apply Hall. by right.
Qed.

Lemma quiet_counts (l : list event) :
  Forall (λ e, is_quiet e = true) l →
  count is_post l = 0%nat ∧ count is_write l = 0%nat ∧ count is_sleep l = 0%nat.
Proof.
  intros Hq. rewrite Forall_forall in Hq.
  repeat split; apply count_zero; intros e He; apply Hq in He; by destruct e.
Qed.

Lemma log_is_quiet (l : list event) :
  Forall (λ e, is_log e = true) l → Forall (λ e, is_quiet e = true) l.
Proof. intros Hl. eapply Forall_impl; [exact Hl|]. by intros []. Qed.

(** A list with one event of a kind splits around that event in one way. *)
Lemma split_at_unique (p : event → bool) (l1 l2 l1' l2' : list event) (x x' : event) :
  l1 ++ x :: l2 = l1' ++ x' :: l2' →
  (∀ e, e ∈ l1 → p e = false) →
  (∀ e, e ∈ l2 → p e = false) →
  p x' = true →
  l1' = l1 ∧ x' = x ∧ l2' = l2.
Proof.
  revert l1'. induction l1 as [|a l1 IH]; intros [|a' l1'] Heq H1 H2 Hx'; simpl in Heq.
  - by injection Heq as -> ->.
  - injection Heq as -> ->.
    rewrite (H2 x') in Hx'; [done|]. apply elem_of_app. right. by left.
  - injection Heq as -> _. rewrite (H1 x') in Hx'; [done|]. by left.
  - injection Heq as -> Heq.
    destruct (IH l1' Heq) as (-> & -> & ->); auto.
    intros e He. apply H1. by right.
Qed.

Lemma cycle_events_spec (w : world) (f : file_state) (evs : list event) :
  process_shop_data w = set_file f (extend w evs) →
  cycle_events w = evs ∧ file (process_shop_data w) = f.
Proof.
  intros Hp. unfold cycle_events. rewrite Hp. split; [|done].
  unfold set_file, extend, now. simpl. by rewrite drop_app_length.
Qed.

Lemma cycle_events_extend (w : world) (evs : list event) :
  process_shop_data w = extend w evs →
  cycle_events w = evs ∧ file (process_shop_data w) = file w.
Proof.
  intros Hp. unfold cycle_events. rewrite Hp. split; [|done].
  unfold extend, now. simpl. by rewrite drop_app_length.
Qed.

Lemma except_spec (e : exn) (w : world) (evs : list event) :
  ∃ msg, except e (extend w evs) = extend w (evs ++ [Log ERROR msg]).
Proof. eexists. apply except_line. Qed.

Lemma read_events_quiet (f : file_state) : Forall (λ e, is_quiet e = true) (read_events f).
Proof.
  unfold read_events. destruct (open_and_load f) as [data|e];
    [|destruct (caught_by_load e)]; by repeat constructor.
Qed.

Lemma before_dispatch_quiet (f : file_state) (secs : list RawSection) :
  Forall (λ e, is_quiet e = true) (before_dispatch f secs).
Proof.
  unfold before_dispatch. repeat apply Forall_app_2; try by repeat constructor.
  - apply read_events_quiet.
  - apply Forall_fmap, Forall_true. done.
Qed.

(** *** How a cycle can go *)

(** Either nothing but quiet events happened and the file is as it
    was, or the cycle ran to its end. *)
Lemma cycle_cases (w : world) :
  (∃ evs, process_shop_data w = extend w evs ∧ Forall (λ e, is_quiet e = true) evs)
  ∨ (∃ r data embeds,
       api (S (now w)) = GetReturns r ∧ status_code r = 200 ∧ json r = Ok data
       ∧ loads (file w) = true
       ∧ embeds_of (changed_sections (loaded (file w)) (sections_of data)) = Ok embeds).
Proof.
  destruct (api (S (now w))) as [msg|r] eqn:Hapi.
  { left. eexists. split; [by apply cycle_get_raises|]. by repeat constructor. }
  destruct (decide (status_code r = 200)) as [Hst|Hst].
  2: { left. eexists. split; [by apply cycle_bad_status|]. by repeat constructor. }
  destruct (json r) as [data|e] eqn:Hjs.
  2: { left. rewrite (cycle_bad_body w r e) by done.
       destruct (except_spec e w [fetching; HttpGet API_URL]) as [msg ->].
       eexists. split; [done|]. by repeat constructor. }
  destruct (loads (file w)) eqn:Hl.
  2: { left. destruct (cycle_load_error w r data Hapi Hst Hjs Hl) as (e & _ & _ & ->).
       eexists. split; [done|]. unfold failure_line. by repeat constructor. }
  destruct (embeds_of (changed_sections (loaded (file w)) (sections_of data)))
    as [embeds|e] eqn:Hemb.
  - right. by exists r, data, embeds.
  - left. destruct (cycle_format_error w r data e) as (logs & Hlogs & ->); try done.
    match goal with |- context [except e (extend w ?evs)] =>
      destruct (except_spec e w evs) as [msg ->] end.
    eexists. split; [done|].
    repeat apply Forall_app_2; try by repeat constructor.
    + apply read_events_quiet.
    + by apply log_is_quiet.
Qed.

End Traces.

(* ===================================================================== *)
(** ** Fetching and loading *)
(* ===================================================================== *)

Section FetchAndLoad.
Context {lib : DatetimeLib} {out : Outside}.

(** C7.  When the feed answers with a status other than 200, the cycle
    consists of the opening log line, the GET and one error line that
    carries the status and the body: no message is posted, the snapshot
    file is neither read nor written and keeps its content, and the
    loop goes on to its sleep and its next turn. *)
Theorem non_200_aborts_the_cycle (w : world) (r : response) (n : nat) :
  api (S (now w)) = GetReturns r →
  status_code r ≠ 200 →
  let failure := Log ERROR ("Failed to fetch data: " +:+ str (status_code r)
                            +:+ " - " +:+ text r) in
  cycle_events w = [fetching; HttpGet API_URL; failure]
  ∧ file (process_shop_data w) = file w
  ∧ while_true (S n) w
    = while_true n
        (extend w [fetching; HttpGet API_URL; failure;
                   Log INFO "Sleeping for 60 seconds before next check...";
                   Slept CHECK_INTERVAL]).
Proof.
  intros Hapi Hst failure.
  pose proof (cycle_bad_status w r Hapi Hst) as Hp. fold failure in Hp.
  destruct (cycle_events_extend w _ Hp) as [Hev Hfile].
  repeat split; [done|done|].
  cbn [while_true]. rewrite Hp. f_equal.
  unfold logging, emit, extend. cbn [trace file]. f_equal.
  rewrite <-!app_assoc. reflexivity.
Qed.


End FetchAndLoad.

(* ===================================================================== *)
(** ** Dispatch and persistence *)
(* ===================================================================== *)

Section DispatchAndPersist.
Context {lib : DatetimeLib} {out : Outside}.

Lemma post_log_is_log (r : post_result) : is_log (post_log r) = true.
Proof. destruct r as [msg|status body]; simpl; [done|]. by case_bool_decide. Qed.

Lemma elem_of_post_events (k : nat) (embeds : list embed) (ev : event) :
  ev ∈ post_events k embeds →
  (∃ e, e ∈ embeds ∧ ev = HttpPost WEBHOOK_URL [e]) ∨ is_log ev = true.
Proof.
  revert k. induction embeds as [|e embeds IH]; intros k; simpl.
  - by intros ?%elem_of_nil.
  - intros [->|[->|Hin]%elem_of_cons]%elem_of_cons.
    + left. exists e. split; [by left|done].
    + right. apply post_log_is_log.
    + destruct (IH _ Hin) as [(e' & He' & ->)|Hlog]; [|by right].
      left. exists e'. split; [by right|done].
Qed.

Lemma post_events_posted (k : nat) (embeds : list embed) (e : embed) :
  e ∈ embeds → HttpPost WEBHOOK_URL [e] ∈ post_events k embeds.
Proof.
  revert k. induction embeds as [|e' embeds IH]; intros k; [by intros ?%elem_of_nil|].
  intros [->|Hin]%elem_of_cons; simpl.
  - by left.
  - right. right. by apply IH.
Qed.

Lemma count_post_events (k : nat) (embeds : list embed) :
  count is_post (post_events k embeds) = length embeds
  ∧ count is_sleep (post_events k embeds) = 0%nat
  ∧ count is_write (post_events k embeds) = 0%nat.
Proof.
  revert k. induction embeds as [|e embeds IH]; intros k; [done|].
  cbn [post_events length]. rewrite !(count_cons _ (HttpPost _ _)), !(count_cons _ (post_log _)).
  destruct (IH (S (S k))) as (-> & -> & ->).
  pose proof (post_log_is_log (webhook k)) as Hl.
  destruct (post_log (webhook k)); done.
Qed.

Lemma count_replicate_slept (n : nat) :
  count is_post (replicate n (Slept 1)) = 0%nat
  ∧ count is_sleep (replicate n (Slept 1)) = n
  ∧ count is_write (replicate n (Slept 1)) = 0%nat.
Proof.
  induction n as [|n (IH1 & IH2 & IH3)]; [done|].
  cbn [replicate]. rewrite !count_cons, IH1, IH2, IH3. done.
Qed.

Lemma count_dispatch (k : nat) (embeds : list embed) :
  count is_post (dispatch k embeds) = length embeds
  ∧ count is_sleep (dispatch k embeds) = length embeds
  ∧ count is_write (dispatch k embeds) = 0%nat.
Proof.
  unfold dispatch. rewrite !count_app.
  destruct (count_post_events k embeds) as (-> & -> & ->).
  destruct (count_replicate_slept (length embeds)) as (-> & -> & ->). lia.
Qed.

(** The POSTs of a completed cycle are those of its messages. *)
Lemma completed_cycle_posts (w : world) (secs : list RawSection) (embeds : list embed)
    (url : string) (es : list embed) :
  HttpPost url es ∈ completed_cycle w secs embeds
  ↔ url = WEBHOOK_URL ∧ ∃ e, e ∈ embeds ∧ es = [e].
Proof.
  unfold completed_cycle. cbv zeta. rewrite !elem_of_app. split.
  - intros [Hin|[Hin|Hin]].
    + pose proof (before_dispatch_quiet (file w) secs) as Hq.
      rewrite Forall_forall in Hq. by apply Hq in Hin.
    + unfold dispatch in Hin. apply elem_of_app in Hin as [Hin|Hin].
      * apply elem_of_post_events in Hin as [(e & He & [= -> ->])|?]; [|done].
        split; [done|]. by exists e.
      * by apply elem_of_replicate in Hin as [? _].
    + unfold after_dispatch, save_events in Hin. case_bool_decide.
      * apply elem_of_cons in Hin as [?|Hin]; [done|].
        apply elem_of_cons in Hin as [?|Hin]; [done|].
        apply list_elem_of_singleton in Hin. by destruct (disk _).
      * by apply list_elem_of_singleton in Hin.
  - intros (-> & e & He & ->). right. left. unfold dispatch.
    apply elem_of_app. left. by apply post_events_posted.
Qed.

(** The write of a completed cycle, if any, is that of the new mapping. *)
Lemma completed_cycle_writes (w : world) (secs : list RawSection) (embeds : list embed)
    (path : string) (d : snapshot) :
  FileWrite path d ∈ completed_cycle w secs embeds
  ↔ loaded (file w) ≠ new_data_of secs ∧ path = SNAPSHOT_PATH ∧ d = new_data_of secs.
Proof.
  unfold completed_cycle. cbv zeta. rewrite !elem_of_app. split.
  - intros [Hin|[Hin|Hin]].
    + pose proof (before_dispatch_quiet (file w) secs) as Hq.
      rewrite Forall_forall in Hq. by apply Hq in Hin.
    + unfold dispatch in Hin. apply elem_of_app in Hin as [Hin|Hin].
      * by apply elem_of_post_events in Hin as [(e & He & ?)|?].
      * by apply elem_of_replicate in Hin as [? _].
    + unfold after_dispatch, save_events in Hin. case_bool_decide.
      * apply elem_of_cons in Hin as [?|Hin]; [done|].
        apply elem_of_cons in Hin as [[= -> ->]|Hin]; [done|].
        apply list_elem_of_singleton in Hin. by destruct (disk _).
      * by apply list_elem_of_singleton in Hin.
  - intros (Hdiff & -> & ->). right. right. unfold after_dispatch, save_events.
    rewrite bool_decide_eq_true_2 by done. right. by left.
Qed.

Lemma feed_serves_completed (w : world) (data : Body) (embeds : list embed) :
  feed_serves w data →
  loads (file w) = true →
  embeds_of (changed_sections (loaded (file w)) (sections_of data)) = Ok embeds →
  cycle_events w = completed_cycle w (sections_of data) embeds
  ∧ file (process_shop_data w) = file_after_cycle w (sections_of data) embeds.
Proof.
  intros (r & Hapi & Hst & Hjs) Hl Hemb.
  apply cycle_events_spec. by apply (cycle_completed w r data embeds).
Qed.

Lemma count_after_dispatch (k : nat) (old_data new_data : snapshot) :
  count is_post (after_dispatch k old_data new_data) = 0%nat
  ∧ count is_sleep (after_dispatch k old_data new_data) = 0%nat
  ∧ count is_write (after_dispatch k old_data new_data)
    = (if bool_decide (old_data ≠ new_data) then 1 else 0)%nat.
Proof.
  unfold after_dispatch, save_events. case_bool_decide; [|done].
  rewrite !count_cons. by destruct (disk (S k)).
Qed.


(** C2.  In a cycle that runs to its end (the feed answers, the
    snapshot loads, every message is built), the snapshot file is
    written exactly when the new mapping differs from the loaded one,
    release dates included, and what is written is the new mapping;
    when the two mappings are equal the file keeps its content, whether
    or not sections were announced. *)
Theorem file_written_iff_mapping_differs
    (w : world) (data : Body) (embeds : list embed) :
  feed_serves w data →
  loads (file w) = true →
  embeds_of (changed_sections (loaded (file w)) (sections_of data)) = Ok embeds →
  let old_data := loaded (file w) in
  let new_data := new_data_of (sections_of data) in
  (∀ path d, FileWrite path d ∈ cycle_events w
             ↔ old_data ≠ new_data ∧ path = SNAPSHOT_PATH ∧ d = new_data)
  ∧ (old_data = new_data → file (process_shop_data w) = file w)
  ∧ (old_data ≠ new_data → (∀ k, disk k = WriteOk)
     → file (process_shop_data w) = Holds new_data).
Proof.
  intros Hfeed Hl Hemb old_data new_data.
  destruct (feed_serves_completed w data embeds Hfeed Hl Hemb) as [-> ->].
  split; [|split].
  - intros path d. apply completed_cycle_writes.
  - intros Heq. unfold file_after_cycle.
    by rewrite bool_decide_eq_false_2 by (intros Hne; by apply Hne).
  - intros Hne Hdisk. unfold file_after_cycle, saved_file.
    rewrite bool_decide_eq_true_2 by done. by rewrite Hdisk.
Qed.

(** C3.  Wherever a cycle writes the snapshot file, every POST of the
    cycle has been made before the write and every task that made one
    has finished its sleep before the write: nothing of the dispatch
    follows the write. *)
Theorem write_follows_every_dispatch
    (w : world) (pre post : list event) (path : string) (d : snapshot) :
  cycle_events w = pre ++ FileWrite path d :: post →
  count is_post post = 0%nat
  ∧ count is_sleep post = 0%nat
  ∧ count is_post pre = count is_post (cycle_events w)
  ∧ count is_sleep pre = count is_post pre.
Proof.
  intros Hsplit.
  destruct (cycle_cases w)
    as [(evs & Hp & Hq)|(r & data & embeds & Hapi & Hst & Hjs & Hl & Hemb)].
  { destruct (cycle_events_extend w evs Hp) as [Hev _]. rewrite Hev in Hsplit.
    rewrite Forall_forall in Hq.
    assert (is_quiet (FileWrite path d) = true) as Habs; [|done].
    apply Hq. rewrite Hsplit. apply elem_of_app. right. by left. }
  assert (feed_serves w data) as Hfeed by (by exists r).
  destruct (feed_serves_completed w data embeds Hfeed Hl Hemb) as [Hev _].
  rewrite Hsplit in Hev.
  assert (FileWrite path d ∈ completed_cycle w (sections_of data) embeds) as Hin.
  { rewrite <-Hev. apply elem_of_app. right. by left. }
  apply completed_cycle_writes in Hin as (Hdiff & -> & ->).
  unfold completed_cycle, after_dispatch, save_events in Hev. cbv zeta in Hev.
  rewrite bool_decide_eq_true_2 in Hev by done.
  set (B := before_dispatch (file w) (sections_of data)) in *.
  set (M := dispatch (now w + length B) embeds) in *.
  set (L1 := Log INFO "New shop data detected, updating old data file...") in *.
  match type of Hev with
  | _ = _ ++ _ ++ [_; _; ?l2] => set (L2 := l2) in *
  end.
  assert (is_quiet L2 = true) as HL2 by (unfold L2; by destruct (disk _)).
  pose proof (quiet_counts B (before_dispatch_quiet _ _)) as (HB1 & HB2 & HB3).
  destruct (count_dispatch (now w + length B) embeds) as (HM1 & HM2 & HM3).
  fold M in HM1, HM2, HM3.
  assert (pre = B ++ M ++ [L1] ∧ post = [L2]) as [-> ->].
  { assert ((B ++ M ++ [L1]) ++ FileWrite SNAPSHOT_PATH (new_data_of (sections_of data)) :: [L2]
            = pre ++ FileWrite SNAPSHOT_PATH (new_data_of (sections_of data)) :: post) as Heq.
    { rewrite Hev. by rewrite <-!app_assoc. }
    apply (split_at_unique is_write) in Heq as (-> & _ & ->); [done| | |done].
    - apply count_zero. rewrite !count_app, HB2, HM3. done.
    - intros e ->%list_elem_of_singleton. by destruct L2. }
  rewrite Hsplit. repeat first [rewrite count_app | rewrite count_cons].
  rewrite HB1, HB3, HM1, HM2. clearbody L2.
  destruct L2; try done; simpl; unfold count; simpl; lia.
Qed.

End DispatchAndPersist.

(* ===================================================================== *)
(** ** New sections, removed sections, and dates that do not parse *)
(* ===================================================================== *)

Section Announcements.
Context {lib : DatetimeLib} {out : Outside}.

Lemma Forall2_elem_of_l {A B} (P : A → B → Prop) (xs : list A) (ys : list B) (x : A) :
  Forall2 P xs ys → x ∈ xs → ∃ y, y ∈ ys ∧ P x y.
Proof.
  induction 1 as [|x' y' xs ys Hxy _ IH]; [by intros ?%elem_of_nil|].
  intros [->|Hin]%elem_of_cons.
  - exists y'. split; [by left|done].
  - destruct (IH Hin) as (y & Hy & HP). exists y. split; [by right|done].
Qed.

Lemma Forall2_elem_of_r {A B} (P : A → B → Prop) (xs : list A) (ys : list B) (y : B) :
  Forall2 P xs ys → y ∈ ys → ∃ x, x ∈ xs ∧ P x y.
Proof.
  induction 1 as [|x' y' xs ys Hxy _ IH]; [by intros ?%elem_of_nil|].
  intros [->|Hin]%elem_of_cons.
  - exists x'. split; [by left|done].
  - destruct (IH Hin) as (x & Hx & HP). exists x. split; [by right|done].
Qed.

Lemma elem_of_changed_sections (old_data : snapshot) (secs : list RawSection) (s : RawSection) :
  s ∈ changed_sections old_data secs ↔ is_changed old_data s = true ∧ s ∈ secs.
Proof. unfold changed_sections. by rewrite list_elem_of_filter. Qed.

(** The loop stores nothing under an identifier that no section has. *)
Lemma store_sections_other (secs : list RawSection) (m : snapshot) (sid : string) :
  (∀ s, s ∈ secs → section_id_of s ≠ sid) →
  foldl store_section m secs !! sid = m !! sid.
Proof.
  revert m. induction secs as [|s secs IH]; intros m Hids; [done|].
  cbn [foldl]. rewrite IH by (intros s' Hs'; apply Hids; by right).
  unfold store_section. apply lookup_insert_ne. apply Hids. by left.
Qed.

Lemma new_data_of_other (secs : list RawSection) (sid : string) :
  (∀ s, s ∈ secs → section_id_of s ≠ sid) → new_data_of secs !! sid = None.
Proof. intros Hids. unfold new_data_of. by rewrite store_sections_other. Qed.

(** Two answers to the same GET are the same answer. *)
Lemma feed_serves_functional (w : world) (data data' : Body) :
  feed_serves w data → feed_serves w data' → data = data'.
Proof.
  intros (r & Hr & _ & Hj) (r' & Hr' & _ & Hj'). congruence.
Qed.

(** A cycle in which the load or a message raises stays quiet. *)
Lemma aborted_cycle_is_quiet (w : world) (data : Body) :
  feed_serves w data →
  loads (file w) = false
  ∨ is_ok (embeds_of (changed_sections (loaded (file w)) (sections_of data))) = false →
  count is_post (cycle_events w) = 0%nat
  ∧ count is_write (cycle_events w) = 0%nat
  ∧ file (process_shop_data w) = file w.
Proof.
  intros Hfeed Hbad.
  destruct (cycle_cases w)
    as [(evs & Hp & Hq)|(r & data' & embeds & Hapi & Hst & Hjs & Hl & Hemb)].
  - destruct (cycle_events_extend w evs Hp) as [-> ->].
    destruct (quiet_counts evs Hq) as (? & ? & ?). done.
  - assert (feed_serves w data') as Hfeed' by (by exists r).
    rewrite (feed_serves_functional w data data' Hfeed Hfeed') in Hbad.
    destruct Hbad as [Hbad|Hbad]; [congruence|]. by rewrite Hemb in Hbad.
Qed.

(** When building a message raises, the cycle stays quiet. *)
Lemma format_error_is_quiet (w : world) (data : Body) :
  feed_serves w data →
  is_ok (embeds_of (changed_sections (loaded (file w)) (sections_of data))) = false →
  count is_post (cycle_events w) = 0%nat
  ∧ count is_write (cycle_events w) = 0%nat
  ∧ file (process_shop_data w) = file w.
Proof. intros Hfeed Hbad. apply (aborted_cycle_is_quiet w data Hfeed). by right. Qed.

(** The cycle in which reading the snapshot file raises. *)
Lemma load_error_cycle (w : world) (data : Body) :
  feed_serves w data →
  loads (file w) = false →
  ∃ e, open_and_load (file w) = Raise e
       ∧ cycle_events w
         = [fetching; HttpGet API_URL; FileRead SNAPSHOT_PATH; failure_line e]
       ∧ file (process_shop_data w) = file w.
Proof.
  intros (r & Hapi & Hst & Hjs) Hl.
  destruct (cycle_load_error w r data Hapi Hst Hjs Hl) as (e & He & _ & Hp).
  exists e. split; [exact He|]. by apply cycle_events_extend.
Qed.

(** The first two fields of a message name the section. *)
Lemma create_embed_front (section : RawSection) (n : NormalizedSection) (e : embed) :
  create_embed_for_section section n = Ok e →
  take 2 (fields e)
  = [Field "**Display Name**" (default "N/A" (displayName section)) true;
     Field "**Section ID**" (section_id_of section) true].
Proof.
  unfold create_embed_for_section.
  destruct (release_dates_field (release_dates n)); [|done].
  intros [= <-]. by destruct (truthy (category section)).
Qed.

Lemma create_embed_names (section : RawSection) (n : NormalizedSection) (e : embed) :
  create_embed_for_section section n = Ok e →
  name <$> fields e
  = spec_field_names (truthy (category section)) (bool_decide (billboard n > 0)).
Proof.
  unfold create_embed_for_section.
  destruct (release_dates_field (release_dates n)); [|done].
  intros [= <-]. by destruct (truthy (category section)), (bool_decide (billboard n > 0)).
Qed.

(** C6 (as amended).  A section whose identifier has no entry in the
    loaded snapshot compares as changed, whatever its record is.  Its
    message is built and posted in every cycle that runs to its end,
    that is when the snapshot loads and the message of every changed
    section of the feed is built; the message posted is the one of this
    section: it opens with the section's display name and identifier
    and has the fields of the layout.  When the load raises or the
    message of any changed section of the feed raises, the cycle posts
    nothing, for this section or any other. *)
Theorem new_section_is_announced (old_data : snapshot) (s : RawSection) :
  old_data !! section_id_of s = None →
  (∀ n, section_changed (old_section_of old_data (section_id_of s)) (to_dict n) = true)
  ∧ is_changed old_data s = true
  ∧ (∀ w data embeds,
       loaded (file w) = old_data →
       loads (file w) = true →
       feed_serves w data →
       s ∈ sections_of data →
       embeds_of (changed_sections old_data (sections_of data)) = Ok embeds →
       ∃ e, create_embed_for_section s (new_section_of s) = Ok e
            ∧ HttpPost WEBHOOK_URL [e] ∈ cycle_events w
            ∧ take 2 (fields e)
              = [Field "**Display Name**" (default "N/A" (displayName s)) true;
                 Field "**Section ID**" (section_id_of s) true]
            ∧ name <$> fields e
              = spec_field_names (truthy (category s))
                                 (bool_decide (billboard (new_section_of s) > 0)))
  ∧ (∀ w data,
       loaded (file w) = old_data →
       feed_serves w data →
       s ∈ sections_of data →
       loads (file w) = false
       ∨ is_ok (embeds_of (changed_sections old_data (sections_of data))) = false →
       count is_post (cycle_events w) = 0%nat).
Proof.
  intros Habs. split; [|split; [|split]].
  - intros n. unfold old_section_of. rewrite Habs. apply changed_against_nothing.
  - by apply is_changed_absent.
  - intros w data embeds <- Hl Hfeed Hin Hemb.
    destruct (feed_serves_completed w data embeds Hfeed Hl Hemb) as [-> _].
    apply for_each_Ok in Hemb.
    destruct (Forall2_elem_of_l _ _ _ s Hemb) as (e & He & Hse).
    { apply elem_of_changed_sections. split; [by apply is_changed_absent|done]. }
    exists e. split; [done|]. split; [|split].
    + apply completed_cycle_posts. split; [done|]. by exists e.
    + by apply (create_embed_front s (new_section_of s)).
    + by apply (create_embed_names s (new_section_of s)).
  - intros w data <- Hfeed _ Hbad.
    by destruct (aborted_cycle_is_quiet w data Hfeed Hbad) as (? & _ & _).
Qed.


(** C9 (as amended).  When a section that compares as changed has a
    non-empty start date of which no time marker can be made, building
    its message raises, and the cycle posts nothing, writes nothing and
    leaves the file as it was.  A time marker can be made of a date
    exactly when [fromisoformat] accepts it and [timestamp] returns on
    the result, so a date that [fromisoformat] rejects is such a date.
    When a time marker can be made of every non-empty start date of a
    section, its message is built; when that holds for all sections of
    the feed and the snapshot loads, the cycle runs to its end. *)
Theorem unparseable_date_aborts_the_cycle :
  (∀ w data s rank d,
     feed_serves w data →
     s ∈ sections_of data →
     is_changed (loaded (file w)) s = true →
     rank ∈ ranks_of s → kept_date rank d →
     is_ok (date_marker d) = false →
     is_ok (create_embed_for_section s (new_section_of s)) = false
     ∧ count is_post (cycle_events w) = 0%nat
     ∧ count is_write (cycle_events w) = 0%nat
     ∧ file (process_shop_data w) = file w)
  ∧ (∀ d, (is_ok (date_marker d) = true
           ↔ ∃ dt, fromisoformat d = Ok dt ∧ is_ok (timestamp dt) = true)
          ∧ (is_ok (fromisoformat d) = false → is_ok (date_marker d) = false))
  ∧ (∀ s,
       (∀ rank d, rank ∈ ranks_of s → kept_date rank d → is_ok (date_marker d) = true) →
       is_ok (create_embed_for_section s (new_section_of s)) = true)
  ∧ (∀ w data,
       feed_serves w data →
       loads (file w) = true →
       (∀ s rank d, s ∈ sections_of data → rank ∈ ranks_of s → kept_date rank d →
                    is_ok (date_marker d) = true) →
       ∃ embeds,
         embeds_of (changed_sections (loaded (file w)) (sections_of data)) = Ok embeds
         ∧ cycle_events w = completed_cycle w (sections_of data) embeds).
Proof.
  assert (∀ s, (∀ rank d, rank ∈ ranks_of s → kept_date rank d
                          → is_ok (date_marker d) = true)
               → is_ok (create_embed_for_section s (new_section_of s)) = true) as Hgood.
  { intros s Hs. rewrite create_embed_is_ok. apply release_dates_field_is_ok.
    intros d Hd Hne. apply elem_of_release_dates in Hd as (rank & Hrank & Hkept).
    by apply (Hs rank). }
  split; [|split; [|split; [exact Hgood|]]].
  - intros w data s rank d Hfeed Hs Hch Hrank Hkept Hbad.
    assert (is_ok (create_embed_for_section s (new_section_of s)) = false) as Hraise.
    { apply not_true_is_false. rewrite create_embed_is_ok, release_dates_field_is_ok.
      intros Hall. rewrite Hall in Hbad; [done| |by destruct Hkept].
      apply elem_of_release_dates. by exists rank. }
    split; [done|]. apply (format_error_is_quiet w data Hfeed).
    apply not_true_is_false. unfold embeds_of. rewrite for_each_is_ok. intros Hall.
    rewrite Hall in Hraise; [done|]. by apply elem_of_changed_sections.
  - intros d. split; [apply date_marker_is_ok|apply date_marker_rejected].
  - intros w data Hfeed Hl Hall.
    destruct (embeds_of (changed_sections (loaded (file w)) (sections_of data)))
      as [embeds|e] eqn:Hemb.
    + exists embeds. split; [done|]. by apply feed_serves_completed.
    + assert (is_ok (embeds_of (changed_sections (loaded (file w)) (sections_of data)))
              = true) as Hok; [|by rewrite Hemb in Hok].
      unfold embeds_of. apply for_each_is_ok.
      intros s [_ Hs]%elem_of_changed_sections. apply Hgood. intros rank d.
      by apply Hall.
Qed.

(** C10.  A section identifier that the snapshot has and the feed no
    longer has is not announced, and no mapping written in the cycle
    has it; a cycle that runs to its end does write the new mapping.
    When the body lacks [shopData] or [sections], the list of sections
    is empty and the snapshot is replaced by the empty mapping without
    any message. *)
Theorem removed_section_is_silent (w : world) (data : Body) (sid : string) :
  feed_serves w data →
  is_Some (loaded (file w) !! sid) →
  (∀ s, s ∈ sections_of data → section_id_of s ≠ sid) →
  (∀ url es e, HttpPost url es ∈ cycle_events w → e ∈ es → embed_section_id e ≠ Some sid)
  ∧ (∀ path d, FileWrite path d ∈ cycle_events w → d !! sid = None)
  ∧ (∀ embeds,
       embeds_of (changed_sections (loaded (file w)) (sections_of data)) = Ok embeds →
       FileWrite SNAPSHOT_PATH (new_data_of (sections_of data)) ∈ cycle_events w)
  ∧ (shopData data = None ∨ (∃ sd, shopData data = Some sd ∧ sections sd = None) →
     sections_of data = []
     ∧ ∃ saved, is_log saved = true
         ∧ cycle_events w
           = [fetching; HttpGet API_URL; FileRead SNAPSHOT_PATH;
              Log INFO "Processing 0 shop sections...";
              Log INFO "New shop data detected, updating old data file...";
              FileWrite SNAPSHOT_PATH ∅; saved]
         ∧ ((∀ k, disk k = WriteOk) → file (process_shop_data w) = Holds ∅)).
Proof.
  intros Hfeed Hold Hgone.
  pose proof (loaded_entry_loads (file w) sid Hold) as Hl.
  pose proof (new_data_of_other (sections_of data) sid Hgone) as Hnew.
  assert (loaded (file w) ≠ new_data_of (sections_of data)) as Hdiff.
  { intros Heq. rewrite Heq, Hnew in Hold. by destruct Hold. }
  assert (∀ ev, ev ∈ cycle_events w → is_quiet ev = false →
                ∃ embeds, embeds_of (changed_sections (loaded (file w)) (sections_of data))
                          = Ok embeds
                          ∧ ev ∈ completed_cycle w (sections_of data) embeds) as Hloud.
  { intros ev Hev Hq.
    destruct (cycle_cases w)
      as [(evs & Hp & Hquiet)|(r & data' & embeds & Hr & Hst & Hjs & _ & Hemb)].
    - destruct (cycle_events_extend w evs Hp) as [Hevs _]. rewrite Hevs in Hev.
      rewrite Forall_forall in Hquiet. apply Hquiet in Hev. congruence.
    - assert (feed_serves w data') as Hfeed' by (by exists r).
      rewrite <-(feed_serves_functional w data data' Hfeed Hfeed') in Hemb.
      exists embeds. split; [done|].
      by destruct (feed_serves_completed w data embeds Hfeed Hl Hemb) as [<- _]. }
  split; [|split; [|split]].
  - intros url es e Hpost He.
    destruct (Hloud _ Hpost eq_refl) as (embeds & Hemb & Hin).
    apply completed_cycle_posts in Hin as (-> & e' & He' & ->).
    apply list_elem_of_singleton in He as ->.
    apply for_each_Ok in Hemb.
    destruct (Forall2_elem_of_r _ _ _ e' Hemb He') as (s & Hs & Hse).
    rewrite (create_embed_section_id _ _ _ Hse). intros [= Hid].
    apply elem_of_changed_sections in Hs as [_ Hs]. by apply (Hgone s).
  - intros path d Hwrite.
    destruct (Hloud _ Hwrite eq_refl) as (embeds & Hemb & Hin).
    by apply completed_cycle_writes in Hin as (_ & _ & ->).
  - intros embeds Hemb.
    destruct (feed_serves_completed w data embeds Hfeed Hl Hemb) as [-> _].
    by apply completed_cycle_writes.
  - intros Hlacks.
    assert (sections_of data = []) as Hnil.
    { unfold sections_of. destruct Hlacks as [->|(sd & -> & Hsd)]; [done|].
      simpl. by rewrite Hsd. }
    split; [done|].
    assert (∃ old, file w = Holds old) as [old Hfile].
    { destruct (file w) as [| |e|old] eqn:Hf;
        [unfold loaded in Hold; simpl in Hold; rewrite lookup_empty in Hold;
         by destruct Hold ..|].
      by exists old. }
    assert (embeds_of (changed_sections (loaded (file w)) (sections_of data)) = Ok [])
      as Hemb by (by rewrite Hnil).
    destruct (feed_serves_completed w data [] Hfeed Hl Hemb) as [-> ->].
    unfold completed_cycle, before_dispatch, after_dispatch, dispatch, save_events.
    unfold file_after_cycle, saved_file.
    cbv zeta. rewrite !bool_decide_eq_true_2 by done.
    rewrite Hnil, Hfile. simpl.
    eexists. split; [|split]; [|reflexivity|].
    + by destruct (disk _).
    + intros Hdisk. by rewrite Hdisk.
Qed.

End Announcements.

(* ===================================================================== *)
(** ** The theorems at the sample data *)
(* ===================================================================== *)

Section Instances.
Import Sample.

Lemma release_dates_are_ignored_witness :
  (∀ k, k ≠ "release_dates" →
        to_dict (new_section_of featured) !! k = to_dict (new_section_of featured_later) !! k)
  ∧ release_dates (new_section_of featured) ≠ release_dates (new_section_of featured_later)
  ∧ section_changed (to_dict (new_section_of featured))
                    (to_dict (new_section_of featured_later)) = false.
Proof.
  assert (∀ k, k ≠ "release_dates" →
               to_dict (new_section_of featured) !! k
               = to_dict (new_section_of featured_later) !! k) as Hsame.
  { apply to_dict_same_but_dates; vm_compute; reflexivity. }
  split; [exact Hsame|]. split.
  - vm_compute. discriminate.
  - exact (proj1 (proj2 (release_dates_are_ignored (lib:=lib) (out:=failing) _ _)) Hsame).
Defined.

Lemma message_field_layout_witness :
  ∃ e, create_embed_for_section (lib:=lib) featured (new_section_of featured) = Ok e
       ∧ name <$> fields e
         = ["**Display Name**"; "**Section ID**"; "**Category**"; "**Background**";
            "**Group Count**"; "**Billboard**"; "**Context(s)**";
            "**Possible Release Dates**"].
Proof.
  destruct (create_embed_for_section (lib:=lib) featured (new_section_of featured))
    as [e|err] eqn:He; [|vm_compute in He; discriminate].
  exists e. split; [reflexivity|].
  exact (proj1 (proj2 (message_field_layout (lib:=lib) featured (new_section_of featured))
                  e He)).
Defined.

Lemma non_200_aborts_the_cycle_witness :
  cycle_events (lib:=lib) (out:=failing) fresh
  = [fetching; HttpGet API_URL;
     Log ERROR "Failed to fetch data: 500 - Internal Server Error"]
  ∧ file (process_shop_data (lib:=lib) (out:=failing) fresh) = Missing.
Proof.
  pose proof (non_200_aborts_the_cycle (lib:=lib) (out:=failing) fresh error_500 0
                eq_refl ltac:(vm_compute; discriminate)) as (Hev & Hfile & _).
  split; [exact Hev|exact Hfile].
Defined.

Lemma feed_serves_serving (w : world) (data : Body) :
  feed_serves (out:=serving data) w data.
Proof. eexists. by repeat split. Qed.



Lemma file_written_iff_mapping_differs_witness :
  file (process_shop_data (lib:=lib) (out:=serving (body_of [featured_later])) seen_featured)
  = Holds (new_data_of [featured_later])
  ∧ count is_post
      (cycle_events (lib:=lib) (out:=serving (body_of [featured_later])) seen_featured)
    = 0%nat.
Proof.
  split; [|vm_compute; reflexivity].
  refine (proj2 (proj2 (file_written_iff_mapping_differs
                          (lib:=lib) (out:=serving (body_of [featured_later]))
                          seen_featured (body_of [featured_later]) []
                          (feed_serves_serving _ _) eq_refl _)) _ _).
  - vm_compute. reflexivity.
  - apply (bool_decide_eq_true_1 (loaded (file seen_featured)
                                  ≠ new_data_of (sections_of (body_of [featured_later])))).
    vm_compute. reflexivity.
  - intros k. reflexivity.
Defined.

Lemma write_follows_every_dispatch_witness :
  count is_post
    (take 10 (cycle_events (lib:=lib) (out:=serving (body_of [featured])) fresh)) = 1%nat
  ∧ count is_sleep
      (take 10 (cycle_events (lib:=lib) (out:=serving (body_of [featured])) fresh)) = 1%nat
  ∧ count is_post
      (drop 11 (cycle_events (lib:=lib) (out:=serving (body_of [featured])) fresh)) = 0%nat.
Proof.
  pose proof (write_follows_every_dispatch
                (lib:=lib) (out:=serving (body_of [featured])) fresh
                (take 10 (cycle_events (lib:=lib) (out:=serving (body_of [featured])) fresh))
                (drop 11 (cycle_events (lib:=lib) (out:=serving (body_of [featured])) fresh))
                SNAPSHOT_PATH (new_data_of [featured])
                ltac:(vm_compute; reflexivity)) as (Hpost & _ & _ & Hslept).
  split; [vm_compute; reflexivity|]. split; [|exact Hpost].
  rewrite Hslept. vm_compute. reflexivity.
Defined.

Lemma new_section_is_announced_witness :
  is_changed ∅ featured = true
  ∧ (∃ e, create_embed_for_section (lib:=lib) featured (new_section_of featured) = Ok e
          ∧ HttpPost WEBHOOK_URL [e]
            ∈ cycle_events (lib:=lib) (out:=serving (body_of [bare; featured])) fresh
          ∧ take 2 (fields e) = [Field "**Display Name**" "Featured" true;
                                 Field "**Section ID**" "Featured1" true])
  ∧ count is_post
      (cycle_events (lib:=lib) (out:=serving (body_of [featured; undated])) fresh) = 0%nat.
Proof.
  destruct (new_section_is_announced
              (lib:=lib) (out:=serving (body_of [bare; featured])) ∅ featured
              (lookup_empty _)) as (_ & Hch & Hposted & _).
  destruct (new_section_is_announced
              (lib:=lib) (out:=serving (body_of [featured; undated])) ∅ featured
              (lookup_empty _)) as (_ & _ & _ & Hsilent).
  split; [exact Hch|]. split.
  - destruct (embeds_of (lib:=lib)
                (changed_sections ∅ (sections_of (body_of [bare; featured]))))
      as [embeds|err] eqn:Hemb; [|vm_compute in Hemb; discriminate].
    destruct (Hposted fresh (body_of [bare; featured]) embeds eq_refl eq_refl
                      (feed_serves_serving _ _)
                      ltac:(right; left) Hemb) as (e & He & Hin & Hfront & _).
    exists e. split; [exact He|]. split; [exact Hin|exact Hfront].
  - apply (Hsilent fresh (body_of [featured; undated]) eq_refl (feed_serves_serving _ _)).
    + left.
    + right. vm_compute. reflexivity.
Defined.

(** The claim as stated fails where another section of the feed has a
    start date that is not a date: the section is new, its message can
    be built, and nothing is posted. *)
Lemma new_section_may_stay_unannounced :
  feed_serves (out:=serving (body_of [featured; undated])) fresh (body_of [featured; undated])
  ∧ featured ∈ sections_of (body_of [featured; undated])
  ∧ loaded (file fresh) !! section_id_of featured = None
  ∧ is_changed (loaded (file fresh)) featured = true
  ∧ is_ok (create_embed_for_section (lib:=lib) featured (new_section_of featured)) = true
  ∧ count is_post
      (cycle_events (lib:=lib) (out:=serving (body_of [featured; undated])) fresh) = 0%nat.
Proof.
  split; [apply feed_serves_serving|]. split; [by left|].
  repeat split; vm_compute; reflexivity.
Qed.

Lemma unparseable_date_aborts_the_cycle_witness :
  (is_ok (create_embed_for_section (lib:=lib) undated (new_section_of undated)) = false
   ∧ count is_post
       (cycle_events (lib:=lib) (out:=serving (body_of [featured; undated])) fresh) = 0%nat
   ∧ count is_write
       (cycle_events (lib:=lib) (out:=serving (body_of [featured; undated])) fresh) = 0%nat
   ∧ file (process_shop_data (lib:=lib) (out:=serving (body_of [featured; undated])) fresh)
     = Missing)
  ∧ is_ok (create_embed_for_section (lib:=lib) bare (new_section_of bare)) = true.
Proof.
  destruct (unparseable_date_aborts_the_cycle
              (lib:=lib) (out:=serving (body_of [featured; undated])))
    as (Habort & _ & Hbuilt & _).
  split.
  - apply (Habort fresh (body_of [featured; undated]) undated
                  {| context := None; startDate := Some "next week" |} "next week").
    + apply feed_serves_serving.
    + right. left.
    + vm_compute. reflexivity.
    + left.
    + split; [reflexivity|discriminate].
    + vm_compute. reflexivity.
  - apply Hbuilt. intros rank d Hrank. by apply elem_of_nil in Hrank.
Defined.

(** The claim as stated fails where a start date parses and has no
    POSIX time: every non-empty start date of the feed is accepted by
    [fromisoformat], and building the message raises all the same. *)
Lemma parsed_date_may_still_abort :
  (∀ s rank d, s ∈ sections_of (body_of [featured; ancient]) →
               rank ∈ ranks_of s → kept_date rank d →
               is_ok (fromisoformat (DatetimeLib:=lib) d) = true)
  ∧ is_changed (loaded (file fresh)) ancient = true
  ∧ is_ok (create_embed_for_section (lib:=lib) ancient (new_section_of ancient)) = false
  ∧ cycle_events (lib:=lib) (out:=serving (body_of [featured; ancient])) fresh
    = [ fetching; HttpGet API_URL; FileRead SNAPSHOT_PATH;
        Log WARNING "No previous shop data found or JSON is corrupt. Creating a new file.";
        Log INFO "Processing 2 shop sections...";
        Log INFO "New or updated section detected: Featured (ID: Featured1)";
        Log INFO "New or updated section detected: Ancient (ID: Ancient)";
        Log ERROR "Unexpected error: year 0 is out of range" ].
Proof.
  split; [|repeat split; vm_compute; reflexivity].
  intros s rank d Hs Hrank Hkept.
  assert (d ∈ release_dates (new_section_of s)) as Hd.
  { apply elem_of_release_dates. by exists rank. }
  clear Hrank Hkept.
  change (sections_of (body_of [featured; ancient])) with [featured; ancient] in Hs.
  apply elem_of_cons in Hs as [->|Hs]; [|apply list_elem_of_singleton in Hs as ->].
  - let dates := eval vm_compute in (release_dates (new_section_of featured)) in
    change (release_dates (new_section_of featured)) with dates in Hd.
    apply list_elem_of_singleton in Hd as ->. vm_compute. reflexivity.
  - let dates := eval vm_compute in (release_dates (new_section_of ancient)) in
    change (release_dates (new_section_of ancient)) with dates in Hd.
    apply list_elem_of_singleton in Hd as ->. vm_compute. reflexivity.
Qed.

Lemma removed_section_is_silent_witness :
  new_data_of (sections_of empty_body) = ∅
  ∧ FileWrite SNAPSHOT_PATH ∅
    ∈ cycle_events (lib:=lib) (out:=serving empty_body) seen_featured
  ∧ count is_post (cycle_events (lib:=lib) (out:=serving empty_body) seen_featured) = 0%nat
  ∧ file (process_shop_data (lib:=lib) (out:=serving empty_body) seen_featured) = Holds ∅.
Proof.
  destruct (removed_section_is_silent
              (lib:=lib) (out:=serving empty_body) seen_featured empty_body "Featured1"
              (feed_serves_serving _ _)
              ltac:(vm_compute; eexists; reflexivity)
              ltac:(intros s Hs; by apply elem_of_nil in Hs))
    as (_ & _ & Hwritten & Hextreme).
  destruct (Hextreme (or_introl eq_refl)) as (_ & saved & Hlog & Hev & Hfile).
  split; [reflexivity|]. split; [exact (Hwritten [] eq_refl)|].
  split; [|exact (Hfile (λ k, eq_refl))].
  rewrite Hev. destruct saved; try discriminate Hlog. vm_compute. reflexivity.
Defined.

End Instances.

(* ===================================================================== *)
(** ** Scenarios

    The end-to-end scenarios of the specification, run on the model. *)
(* ===================================================================== *)

Section Scenarios.
Import Sample.

(** A section with nothing but an identifier gets the defaults. *)
Example bare_record :
  new_section_of bare
  = {| display_name := "N/A"; new_category := None; background_url := "No Background";
       group_count := 0; billboard := 0; contexts := []; release_dates := [] |}.
Proof. vm_compute. reflexivity. Qed.

Example featured_record :
  new_section_of featured
  = {| display_name := "Featured"; new_category := Some "Featured";
       background_url := "http://x/y.png"; group_count := 3; billboard := 2;
       contexts := ["A"; "B"]; release_dates := ["2024-05-01T00:00:00+00:00"] |}.
Proof. vm_compute. reflexivity. Qed.

(** Without category and billboards: six fields, both sentinels. *)
Example bare_message :
  create_embed_for_section (lib:=lib) bare (new_section_of bare)
  = Ok (Embed [ Field "**Display Name**" "N/A" true;
                Field "**Section ID**" "Bare" true;
                Field "**Background**" "No Background" true;
                Field "**Group Count**" "0" true;
                Field "**Context(s)**" "No Context" false;
                Field "**Possible Release Dates**" "No Release Dates" false ]).
Proof. vm_compute. reflexivity. Qed.

(** Scenario A: empty snapshot, one section; one message, and the file
    holds that one record afterwards. *)
Example first_run :
  ∃ e, create_embed_for_section (lib:=lib) featured (new_section_of featured) = Ok e
  ∧ cycle_events (lib:=lib) (out:=serving (body_of [featured])) fresh
    = [ fetching; HttpGet API_URL; FileRead SNAPSHOT_PATH;
        Log WARNING "No previous shop data found or JSON is corrupt. Creating a new file.";
        Log INFO "Processing 1 shop sections...";
        Log INFO "New or updated section detected: Featured (ID: Featured1)";
        HttpPost WEBHOOK_URL [e];
        Log INFO "Message sent successfully to Discord webhook.";
        Slept 1;
        Log INFO "New shop data detected, updating old data file...";
        FileWrite SNAPSHOT_PATH (new_data_of [featured]);
        Log INFO "Updated shop data saved successfully." ]
  ∧ file (process_shop_data (lib:=lib) (out:=serving (body_of [featured])) fresh)
    = Holds (new_data_of [featured]).
Proof. eexists. split; [vm_compute; reflexivity|]. split; vm_compute; reflexivity. Qed.

(** Scenario B: only the release date moved; nothing is posted, the file
    is rewritten. *)
Example only_dates_moved :
  cycle_events (lib:=lib) (out:=serving (body_of [featured_later])) seen_featured
  = [ fetching; HttpGet API_URL; FileRead SNAPSHOT_PATH;
      Log INFO "Processing 1 shop sections...";
      Log INFO "New shop data detected, updating old data file...";
      FileWrite SNAPSHOT_PATH (new_data_of [featured_later]);
      Log INFO "Updated shop data saved successfully." ].
Proof. vm_compute. reflexivity. Qed.

(** Nothing changed at all: nothing is posted, nothing is written. *)
Example nothing_changed :
  cycle_events (lib:=lib) (out:=serving (body_of [featured])) seen_featured
  = [ fetching; HttpGet API_URL; FileRead SNAPSHOT_PATH;
      Log INFO "Processing 1 shop sections...";
      Log INFO "No changes detected in shop data." ].
Proof. vm_compute. reflexivity. Qed.

(** Two sections of the feed share an identifier: the first is announced
    because it differs from the snapshot, the second replaces it in the
    new mapping, which then equals the snapshot; a message is posted and
    the file is not written. *)
Example announced_but_not_written :
  count is_post
    (cycle_events (lib:=lib) (out:=serving (body_of [renamed; featured])) seen_featured)
  = 1%nat
  ∧ count is_write
      (cycle_events (lib:=lib) (out:=serving (body_of [renamed; featured])) seen_featured)
    = 0%nat
  ∧ process_shop_data (lib:=lib) (out:=serving (body_of [renamed; featured])) seen_featured
    = extend seen_featured
        (cycle_events (lib:=lib) (out:=serving (body_of [renamed; featured])) seen_featured).
Proof. repeat split; vm_compute; reflexivity. Qed.

(** Scenario D: the snapshot file is not JSON; every section is new. *)
Example corrupt_snapshot :
  count is_post
    (cycle_events (lib:=lib) (out:=serving (body_of [featured; bare])) corrupt)
  = 2%nat
  ∧ file (process_shop_data (lib:=lib) (out:=serving (body_of [featured; bare])) corrupt)
    = Holds (new_data_of [featured; bare]).
Proof. split; vm_compute; reflexivity. Qed.

(** The snapshot file holds bytes that are not text: the cycle ends at
    the read, and the file stays as it is, turn after turn. *)
Example binary_snapshot :
  cycle_events (lib:=lib) (out:=serving (body_of [featured; bare])) binary
  = [ fetching; HttpGet API_URL; FileRead SNAPSHOT_PATH;
      Log ERROR
        "Unexpected error: 'utf-8' codec can't decode byte 0xff in position 0: invalid start byte" ]
  ∧ file (main_loop (lib:=lib) (out:=serving (body_of [featured; bare])) 2 binary)
    = file binary
  ∧ count is_post (trace (main_loop (lib:=lib) (out:=serving (body_of [featured; bare]))
                                    2 binary)) = 0%nat.
Proof. repeat split; vm_compute; reflexivity. Qed.

(** A date the library rejects: the section before it was detected, but
    nothing is posted and nothing is written. *)
Example rejected_date :
  cycle_events (lib:=lib) (out:=serving (body_of [featured; undated])) fresh
  = [ fetching; HttpGet API_URL; FileRead SNAPSHOT_PATH;
      Log WARNING "No previous shop data found or JSON is corrupt. Creating a new file.";
      Log INFO "Processing 2 shop sections...";
      Log INFO "New or updated section detected: Featured (ID: Featured1)";
      Log INFO "New or updated section detected: Soon (ID: Soon)";
      Log ERROR "Unexpected error: Invalid isoformat string: 'next week'" ].
Proof. vm_compute. reflexivity. Qed.

(** Two turns of the loop against a feed that answers 500. *)
Example two_failed_turns :
  count is_post (trace (main_loop (lib:=lib) (out:=failing) 2 fresh)) = 0%nat
  ∧ count is_sleep (trace (main_loop (lib:=lib) (out:=failing) 2 fresh)) = 2%nat
  ∧ file (main_loop (lib:=lib) (out:=failing) 2 fresh) = Missing.
Proof. repeat split; vm_compute; reflexivity. Qed.

End Scenarios.

(* ===================================================================== *)
(** ** More about the record of a section *)
(* ===================================================================== *)

Section RecordFacts.

Lemma billboards_bounds (groups : list OfferGroup) :
  0 ≤ billboards groups ≤ Z.of_nat (length groups).
Proof.
  unfold billboards. split; [lia|]. apply inj_le, length_filter.
Qed.

Lemma or_else_nonempty (o : option string) (d : string) : d ≠ "" → or_else o d ≠ "".
Proof.
  intros Hd. unfold or_else. destruct o as [s|]; [|done].
  destruct (truthy_str s) eqn:Hs; [|done]. by apply truthy_str_true.
Qed.

Lemma spec_dates_length (ranks : list StackRank) :
  (length (spec_dates ranks) ≤ length ranks)%nat.
Proof.
  unfold spec_dates. induction ranks as [|rank ranks IH]; [done|].
  cbn [mbind list_bind]. rewrite length_app, length_cons.
  destruct (startDate rank) as [d|]; [destruct (decide (d = ""))|]; simpl; lia.
Qed.

(** The record of a section keeps these bounds whatever the feed holds:
    the billboard count lies between zero and the group count, the
    background is never the empty text, the category is never the empty
    text, no release date is empty, and neither list is longer than the
    list of rank entries. *)
Theorem record_invariants (section : RawSection) :
  let n := new_section_of section in
(0 ≤ billboard n ≤ group_count n)
  ∧ background_url n ≠ ""
  ∧ new_category n ≠ Some ""
  ∧ ("" ∉ release_dates n)
  ∧ (length (release_dates n) ≤ length (ranks_of section))%nat
  ∧ (length (contexts n) ≤ length (ranks_of section))%nat.
Proof.
  intros n. subst n. repeat split.
  - apply billboards_bounds.
  - apply billboards_bounds.
  - apply or_else_nonempty. done.
  - unfold new_section_of. simpl.
    destruct (truthy (category section)) eqn:Ht; [|done].
    apply truthy_true in Ht as (s & -> & Hne). congruence.
  - intros (rank & _ & _ & Hne)%elem_of_release_dates. done.
  - rewrite release_dates_of_section, sorted_Permutation, rank_dates_spec.
    apply spec_dates_length.
  - rewrite contexts_of_section, sorted_Permutation.
    trans (length (rank_contexts (ranks_of section))).
    + apply submseteq_length, NoDup_submseteq; [apply NoDup_elements|].
      intros c. unfold iter_set, set. by rewrite elem_of_elements, elem_of_list_to_set.
    + unfold rank_contexts. by rewrite length_fmap.
Qed.

(** The record does not depend on the order in which the feed lists the
    offer groups and the rank entries of a section. *)
Theorem record_ignores_feed_order
    (sid dn cat : option string) (bg : option Background)
    (groups groups' : list OfferGroup) (ranks ranks' : list StackRank) :
  groups ≡ₚ groups' →
  ranks ≡ₚ ranks' →
  new_section_of
    {| sectionID := sid; displayName := dn; category := cat;
       metadata := Some {| background := bg; offerGroups := Some groups;
                           stackRanks := Some ranks |} |}
  = new_section_of
      {| sectionID := sid; displayName := dn; category := cat;
         metadata := Some {| background := bg; offerGroups := Some groups';
                             stackRanks := Some ranks' |} |}.
Proof.
  intros Hg Hr. unfold new_section_of. simpl. f_equal.
  - f_equal. by apply Permutation_length.
  - unfold billboards. f_equal. apply Permutation_length. by rewrite Hg.
  - unfold set, iter_set, rank_contexts. f_equal. f_equal.
    apply list_to_set_perm_L. by rewrite Hr.
  - apply sorted_unique. unfold rank_dates. by rewrite Hr.
Qed.

(** *** The mapping built by the loop *)

Lemma last_cons_or {A} (x : A) (l : list A) :
  last (x :: l) = match last l with Some y => Some y | None => Some x end.
Proof.
  destruct l as [|y l]; [done|]. change (last (x :: y :: l)) with (last (y :: l)).
  destruct (last (y :: l)) eqn:Hl; [done|]. by apply last_None in Hl.
Qed.

Lemma store_sections_lookup (secs : list RawSection) (m : snapshot) (sid : string) :
  foldl store_section m secs !! sid
  = match last_with_id sid secs with
    | Some s => Some (record_of s)
    | None => m !! sid
    end.
Proof.
  revert m. induction secs as [|s secs IH]; intros m; [done|].
  cbn [foldl]. rewrite IH. unfold last_with_id. rewrite filter_cons.
  destruct (decide (section_id_of s = sid)) as [Hid|Hid].
  - rewrite last_cons_or.
    destruct (last (filter (λ s0, section_id_of s0 = sid) secs)); [done|].
    unfold store_section. rewrite Hid. by rewrite lookup_insert_eq.
  - destruct (last (filter (λ s0, section_id_of s0 = sid) secs)); [done|].
    unfold store_section. by rewrite lookup_insert_ne.
Qed.

Lemma new_data_lookup (secs : list RawSection) (sid : string) :
  new_data_of secs !! sid = record_of <$> last_with_id sid secs.
Proof.
  unfold new_data_of. rewrite store_sections_lookup.
  destruct (last_with_id sid secs); [done|]. apply lookup_empty.
Qed.

(** Under each identifier the new mapping holds the record of the last
    section of the feed with that identifier, and it has no other keys. *)
Theorem new_data_last_wins (secs : list RawSection) (sid : string) :
  new_data_of secs !! sid = record_of <$> last_with_id sid secs.
Proof. apply new_data_lookup. Qed.

Lemma last_with_id_unique (secs : list RawSection) (s : RawSection) :
  NoDup (section_id_of <$> secs) → s ∈ secs → last_with_id (section_id_of s) secs = Some s.
Proof.
  unfold last_with_id. induction secs as [|s' secs IH]; [by intros _ ?%elem_of_nil|].
  rewrite fmap_cons, NoDup_cons. intros [Hnew Hnd] Hin. rewrite filter_cons.
  apply elem_of_cons in Hin as [->|Hin].
  - rewrite decide_True by done. rewrite last_cons_or.
    destruct (last (filter _ secs)) as [s''|] eqn:Hl; [|done].
    apply last_Some_elem_of, list_elem_of_filter in Hl as [Hid Hs''].
    destruct Hnew. rewrite <-Hid. by apply list_elem_of_fmap_2.
  - rewrite decide_False; [by apply IH|].
    intros Hid. destruct Hnew. rewrite Hid. by apply list_elem_of_fmap_2.
Qed.

End RecordFacts.

(* ===================================================================== *)
(** ** More about one cycle *)
(* ===================================================================== *)

Section CycleFacts.
Context {lib : DatetimeLib} {out : Outside}.

(** When [requests.get] raises, the cycle logs the exception and ends:
    the snapshot file is not read and nothing is posted or written. *)
Theorem request_failure_aborts_the_cycle (w : world) (msg : string) :
  api (S (now w)) = GetRaises msg →
  cycle_events w
  = [fetching; HttpGet API_URL;
     Log ERROR ("Error fetching Fortnite shop data: " +:+ msg)]
  ∧ file (process_shop_data w) = file w.
Proof. intros Hapi. by apply cycle_events_extend, cycle_get_raises. Qed.


(** *** The POSTs of a cycle *)

Lemma posts_of_app (l1 l2 : list event) : posts_of (l1 ++ l2) = posts_of l1 ++ posts_of l2.
Proof. unfold posts_of. apply filter_app. Qed.

Lemma posts_of_none (l : list event) : count is_post l = 0%nat → posts_of l = [].
Proof. unfold count, posts_of. apply nil_length_inv. Qed.

Lemma posts_of_post_events (k : nat) (embeds : list embed) :
  posts_of (post_events k embeds) = post_of <$> embeds.
Proof.
  revert k. induction embeds as [|e embeds IH]; intros k; [done|].
  cbn [post_events fmap list_fmap]. unfold posts_of in *. rewrite !filter_cons.
  rewrite decide_True by done. rewrite decide_False.
  - f_equal. apply IH.
  - pose proof (post_log_is_log (webhook k)). by destruct (post_log (webhook k)).
Qed.

Lemma posts_of_completed (w : world) (data : Body) (embeds : list embed) :
  feed_serves w data →
  loads (file w) = true →
  embeds_of (changed_sections (loaded (file w)) (sections_of data)) = Ok embeds →
  posts_of (cycle_events w) = post_of <$> embeds.
Proof.
  intros Hfeed Hl Hemb.
  destruct (feed_serves_completed w data embeds Hfeed Hl Hemb) as [-> _].
  unfold completed_cycle, dispatch. cbv zeta. rewrite !posts_of_app.
  rewrite (posts_of_none (before_dispatch _ _))
    by apply quiet_counts, before_dispatch_quiet.
  rewrite posts_of_post_events.
  rewrite (posts_of_none (replicate _ _)) by apply count_replicate_slept.
  rewrite (posts_of_none (after_dispatch _ _ _)) by apply count_after_dispatch.
  simpl. by rewrite !app_nil_r.
Qed.

(** In a cycle that runs to its end (the feed answers, the snapshot
    loads, every message is built) the POSTs are, in feed order, one per
    section that compares as changed, each with that section's message,
    whatever the webhook answers to any of them. *)
Theorem one_post_per_changed_section (w : world) (data : Body) (embeds : list embed) :
  feed_serves w data →
  loads (file w) = true →
  embeds_of (changed_sections (loaded (file w)) (sections_of data)) = Ok embeds →
  posts_of (cycle_events w) = post_of <$> embeds
  ∧ Forall2 (λ s e, create_embed_for_section s (new_section_of s) = Ok e)
            (changed_sections (loaded (file w)) (sections_of data)) embeds.
Proof.
  intros Hfeed Hl Hemb.
  split; [by apply (posts_of_completed w data)|by apply for_each_Ok].
Qed.

End CycleFacts.

(* ===================================================================== *)
(** ** What every cycle and every turn of the loop keeps *)
(* ===================================================================== *)

Section Invariants.
Context {lib : DatetimeLib} {out : Outside}.

Lemma count_logs (p : event → bool) (l : list event) :
  (∀ lvl msg, p (Log lvl msg) = false) →
  Forall (λ e, is_log e = true) l →
  count p l = 0%nat.
Proof.
  intros Hp Hl. apply count_zero. rewrite Forall_forall in Hl.
  intros e He. apply Hl in He. by destruct e.
Qed.

Lemma count_read_events (f : file_state) :
  count is_get (read_events f) = 0%nat ∧ count is_pause (read_events f) = 0%nat.
Proof.
  unfold read_events. destruct (open_and_load f) as [data|e]; [done|].
  by destruct (caught_by_load e).
Qed.

Lemma count_dispatch_calm (k : nat) (embeds : list embed) :
  count is_get (dispatch k embeds) = 0%nat ∧ count is_pause (dispatch k embeds) = 0%nat.
Proof.
  split; apply count_zero; intros e; unfold dispatch; rewrite elem_of_app;
    (intros [[(e' & _ & ->)|Hlog]%elem_of_post_events|[-> _]%elem_of_replicate];
     [done|by destruct e|done]).
Qed.

Lemma count_after_dispatch_calm (k : nat) (old_data new_data : snapshot) :
  count is_get (after_dispatch k old_data new_data) = 0%nat
  ∧ count is_pause (after_dispatch k old_data new_data) = 0%nat.
Proof.
  unfold after_dispatch, save_events. case_bool_decide; [|done].
  rewrite !count_cons. by destruct (disk (S k)).
Qed.

(** The shape shared by all cycles: the opening line, the GET, and a
    rest without a second GET and without a pause of the main loop, with
    at most one write, as many elapsed sleeps as POSTs, and a write
    whenever the file changes. *)
Lemma cycle_shape (w : world) :
  ∃ rest,
    cycle_events w = fetching :: HttpGet API_URL :: rest
    ∧ trace (process_shop_data w) = trace w ++ cycle_events w
    ∧ count is_get rest = 0%nat
    ∧ count is_pause rest = 0%nat
    ∧ (count is_write rest ≤ 1)%nat
    ∧ count is_sleep rest = count is_post rest
    ∧ (file (process_shop_data w) ≠ file w → count is_write rest = 1%nat).
Proof.
  assert (∀ evs, process_shop_data w = extend w evs →
                 trace (process_shop_data w) = trace w ++ cycle_events w) as Htr.
  { intros evs Hp. destruct (cycle_events_extend w evs Hp) as [-> _]. by rewrite Hp. }
  destruct (api (S (now w))) as [msg|r] eqn:Hapi.
  { pose proof (cycle_get_raises w msg Hapi) as Hp.
    destruct (cycle_events_extend w _ Hp) as [Hev Hfile].
    eexists. split; [exact Hev|]. split; [by eapply Htr|]. rewrite Hfile.
    repeat split; try done; unfold count; simpl; lia. }
  destruct (decide (status_code r = 200)) as [Hst|Hst].
  2: { pose proof (cycle_bad_status w r Hapi Hst) as Hp.
       destruct (cycle_events_extend w _ Hp) as [Hev Hfile].
       eexists. split; [exact Hev|]. split; [by eapply Htr|]. rewrite Hfile.
    repeat split; try done; unfold count; simpl; lia. }
  destruct (json r) as [data|e] eqn:Hjs.
  2: { pose proof (cycle_bad_body w r e Hapi Hst Hjs) as Hp.
       destruct (except_spec e w [fetching; HttpGet API_URL]) as [msg Hex].
       rewrite Hex in Hp. destruct (cycle_events_extend w _ Hp) as [Hev Hfile].
       eexists. split; [exact Hev|]. split; [by eapply Htr|]. rewrite Hfile.
    repeat split; try done; unfold count; simpl; lia. }
  destruct (loads (file w)) eqn:Hl.
  2: { destruct (cycle_load_error w r data Hapi Hst Hjs Hl) as (e & _ & _ & Hp).
       destruct (cycle_events_extend w _ Hp) as [Hev Hfile].
       eexists. split; [exact Hev|]. split; [by eapply Htr|]. rewrite Hfile.
       unfold failure_line.
    repeat split; try done; unfold count; simpl; lia. }
  destruct (embeds_of (changed_sections (loaded (file w)) (sections_of data)))
    as [embeds|e] eqn:Hemb.
  - assert (feed_serves w data) as Hfeed by (by exists r).
    pose proof (cycle_completed w r data embeds Hapi Hst Hjs Hl Hemb) as Hp.
    destruct (feed_serves_completed w data embeds Hfeed Hl Hemb) as [Hev Hfile].
    rewrite Hev, Hfile.
    unfold completed_cycle, before_dispatch. cbv zeta.
    set (B := [fetching; HttpGet API_URL] ++ read_events (file w) ++ _).
    set (M := dispatch (now w + length B) embeds).
    set (A := after_dispatch (now w + length B + length M) _ _).
    eexists. split; [reflexivity|]. split.
    { rewrite Hp. reflexivity. }
    destruct (count_read_events (file w)) as [HR1 HR2].
    pose proof (quiet_counts _ (read_events_quiet (file w))) as (HR3 & HR4 & HR5).
    destruct (count_dispatch_calm (now w + length B) embeds) as [HM1 HM2].
    destruct (count_dispatch (now w + length B) embeds) as (HM3 & HM4 & HM5).
    destruct (count_after_dispatch_calm (now w + length B + length M)
                (loaded (file w)) (new_data_of (sections_of data))) as [HA1 HA2].
    destruct (count_after_dispatch (now w + length B + length M)
                (loaded (file w)) (new_data_of (sections_of data))) as (HA3 & HA4 & HA5).
    fold M in HM1, HM2, HM3, HM4, HM5. fold A in HA1, HA2, HA3, HA4, HA5.
    assert (∀ p, (∀ lvl msg, p (Log lvl msg) = false) →
                 count p (detected <$> changed_sections (loaded (file w)) (sections_of data))
                 = 0%nat) as HD.
    { intros p Hp'. apply count_logs; [done|]. by apply Forall_fmap, Forall_true. }
    repeat first [rewrite count_app | rewrite count_cons].
    rewrite HR1, HR2, HR3, HR4, HR5, HM1, HM2, HM3, HM4, HM5, HA1, HA2, HA3, HA4, HA5.
    rewrite !HD by done. simpl.
    unfold file_after_cycle. cbv zeta.
    case_bool_decide;
      repeat split; first [done | unfold count; simpl; lia | intros Hne; by destruct Hne].
  - destruct (cycle_format_error w r data e Hapi Hst Hjs Hl Hemb) as (logs & Hlogs & Hp).
    match type of Hp with _ = except e (extend w ?evs) =>
      destruct (except_spec e w evs) as [msg Hex] end.
    rewrite Hex in Hp. destruct (cycle_events_extend w _ Hp) as [Hev Hfile].
    eexists. split; [rewrite Hev; reflexivity|]. split; [by eapply Htr|].
    rewrite Hfile.
    destruct (count_read_events (file w)) as [HR1 HR2].
    pose proof (quiet_counts _ (read_events_quiet (file w))) as (HR3 & HR4 & HR5).
    pose proof (quiet_counts _ (log_is_quiet _ Hlogs)) as (HL3 & HL4 & HL5).
    repeat first [rewrite count_app | rewrite count_cons].
    rewrite HR1, HR2, HR3, HR4, HR5, HL3, HL4, HL5.
    rewrite !(count_logs _ logs) by done. simpl.
    repeat split; first [done | unfold count; simpl; lia | intros Hne; by destruct Hne].
Qed.

(** Whatever the surroundings answer, a cycle makes exactly one GET,
    writes the snapshot file at most once, leaves no task unfinished
    (as many elapsed sleeps as POSTs), only appends to the trace, and
    changes the file only by a write. *)
Theorem cycle_invariants (w : world) :
  trace (process_shop_data w) = trace w ++ cycle_events w
  ∧ count is_get (cycle_events w) = 1%nat
  ∧ (count is_write (cycle_events w) ≤ 1)%nat
  ∧ count is_sleep (cycle_events w) = count is_post (cycle_events w)
  ∧ (file (process_shop_data w) ≠ file w → count is_write (cycle_events w) = 1%nat).
Proof.
  destruct (cycle_shape w) as (rest & Hev & Htr & Hg & _ & Hw & Hs & Hf).
  split; [exact Htr|]. rewrite Hev, !count_cons. simpl.
  rewrite Hg. repeat split; first [done | lia].
Qed.

End Invariants.

Section Loop.
Context {lib : DatetimeLib} {out : Outside}.

Lemma while_true_trace (n : nat) (w : world) :
  ∃ evs, trace (while_true n w) = trace w ++ evs
         ∧ count is_get evs = n
         ∧ count is_pause evs = n.
Proof.
  revert w. induction n as [|n IH]; intros w.
  - exists []. by rewrite app_nil_r.
  - cbn [while_true].
    set (w2 := emit (Slept CHECK_INTERVAL) (logging INFO _ (process_shop_data w))).
    destruct (IH w2) as (evs & Htr & Hg & Hp).
    destruct (cycle_shape w) as (rest & Hev & Hcyc & Hg0 & Hp0 & _).
    exists (cycle_events w
            ++ [Log INFO ("Sleeping for " +:+ str CHECK_INTERVAL
                          +:+ " seconds before next check...");
                Slept CHECK_INTERVAL] ++ evs).
    split; [|split].
    + rewrite Htr. unfold w2, logging, emit. cbn [trace]. rewrite Hcyc.
      by rewrite <-!app_assoc.
    + rewrite Hev. repeat first [rewrite count_app | rewrite count_cons].
      rewrite Hg0, Hg. simpl. unfold count. simpl. lia.
    + rewrite Hev. repeat first [rewrite count_app | rewrite count_cons].
      rewrite Hp0, Hp. simpl. unfold count. simpl. lia.
Qed.

(** [n] turns of the main loop only append to the trace, make exactly
    [n] GETs and pause exactly [n] times for [CHECK_INTERVAL] seconds,
    whatever the feed, the webhook and the disk answer: no failure of a
    cycle ends the loop or skips its pause. *)
Theorem loop_keeps_turning (n : nat) (w : world) :
  trace (while_true n w) = trace w ++ turn_events n w
  ∧ count is_get (turn_events n w) = n
  ∧ count is_pause (turn_events n w) = n.
Proof.
  destruct (while_true_trace n w) as (evs & Htr & Hg & Hp).
  assert (turn_events n w = evs) as ->.
  { unfold turn_events, now. rewrite Htr. apply drop_app_length. }
  done.
Qed.

End Loop.

(* ===================================================================== *)
(** ** From one cycle to the next *)
(* ===================================================================== *)

Section Successive.
Context {lib : DatetimeLib} {out : Outside}.

Lemma section_changed_same (d : record) : section_changed d d = false.
Proof. by apply section_changed_false. Qed.

(** Against its own output, with distinct identifiers, nothing compares
    as changed. *)
Lemma changed_sections_steady (secs : list RawSection) :
  NoDup (section_id_of <$> secs) → changed_sections (new_data_of secs) secs = [].
Proof.
  intros Hnd. apply elem_of_nil_inv. intros s [Hch Hs]%elem_of_changed_sections.
  unfold is_changed, old_section_of in Hch.
  rewrite new_data_lookup, (last_with_id_unique secs s Hnd Hs) in Hch.
  simpl in Hch. unfold record_of in Hch. by rewrite section_changed_same in Hch.
Qed.

Lemma loaded_after_cycle (w : world) (data : Body) (embeds : list embed) :
  feed_serves w data →
  loads (file w) = true →
  embeds_of (changed_sections (loaded (file w)) (sections_of data)) = Ok embeds →
  (∀ k, disk k = WriteOk) →
  loads (file (process_shop_data w)) = true
  ∧ loaded (file (process_shop_data w)) = new_data_of (sections_of data).
Proof.
  intros Hfeed Hl Hemb Hdisk.
  destruct (feed_serves_completed w data embeds Hfeed Hl Hemb) as [_ ->].
  unfold file_after_cycle, saved_file. cbv zeta. rewrite Hdisk.
  case_bool_decide as Hd; [done|]. split; [done|].
  by destruct (decide (loaded (file w) = new_data_of (sections_of data))).
Qed.

Lemma no_write_when_equal (w : world) (secs : list RawSection) (embeds : list embed) :
  loaded (file w) = new_data_of secs →
  count is_write (completed_cycle w secs embeds) = 0%nat.
Proof.
  intros Heq. apply count_zero. intros e He.
  destruct e as [| | |?|path d|]; try done.
  apply completed_cycle_writes in He as (Hne & _). done.
Qed.

Lemma completed_cycle_last_unchanged (w : world) (secs : list RawSection)
    (embeds : list embed) :
  loaded (file w) = new_data_of secs →
  last (completed_cycle w secs embeds) = Some (Log INFO "No changes detected in shop data.").
Proof.
  intros Heq. unfold completed_cycle, after_dispatch. cbv zeta.
  rewrite bool_decide_eq_false_2 by (intros Hne; by apply Hne).
  by rewrite !app_assoc, last_snoc.
Qed.

(** After a cycle that ran to its end (the feed answered, the snapshot
    loaded, every message was built) with a working disk, a second
    cycle against the same feed is silent, provided the sections of the
    feed have distinct identifiers: it posts nothing, writes nothing,
    leaves the file as it is and ends with the line that reports no
    change. *)
Theorem steady_state_is_quiet (w : world) (data : Body) (embeds : list embed) :
  feed_serves w data →
  loads (file w) = true →
  embeds_of (changed_sections (loaded (file w)) (sections_of data)) = Ok embeds →
  (∀ k, disk k = WriteOk) →
  NoDup (section_id_of <$> sections_of data) →
  feed_serves (process_shop_data w) data →
  posts_of (cycle_events (process_shop_data w)) = []
  ∧ count is_write (cycle_events (process_shop_data w)) = 0%nat
  ∧ file (process_shop_data (process_shop_data w)) = file (process_shop_data w)
  ∧ last (cycle_events (process_shop_data w))
    = Some (Log INFO "No changes detected in shop data.").
Proof.
  intros Hfeed Hl Hemb Hdisk Hnd Hfeed'.
  destruct (loaded_after_cycle w data embeds Hfeed Hl Hemb Hdisk) as [Hl' Hloaded].
  set (w' := process_shop_data w) in *.
  assert (embeds_of (changed_sections (loaded (file w')) (sections_of data)) = Ok [])
    as Hemb'.
  { by rewrite Hloaded, changed_sections_steady. }
  pose proof (posts_of_completed w' data [] Hfeed' Hl' Hemb') as Hposts.
  destruct (feed_serves_completed w' data [] Hfeed' Hl' Hemb') as [Hev Hfile].
  split; [exact Hposts|]. rewrite Hev, Hfile. split; [|split].
  - by apply no_write_when_equal.
  - unfold file_after_cycle. cbv zeta.
    by rewrite bool_decide_eq_false_2 by (intros Hne; by apply Hne).
  - by apply completed_cycle_last_unchanged.
Qed.

(** While [open] fails on the snapshot file, the file keeps its content,
    and a second cycle against the same feed posts the same messages
    again. *)
Theorem unwritable_snapshot_repeats_posts (w : world) (data : Body) (embeds : list embed) :
  feed_serves w data →
  embeds_of (changed_sections (loaded (file w)) (sections_of data)) = Ok embeds →
  (∀ k, ∃ msg, disk k = OpenFails msg) →
  feed_serves (process_shop_data w) data →
  file (process_shop_data w) = file w
  ∧ posts_of (cycle_events (process_shop_data w)) = posts_of (cycle_events w).
Proof.
  intros Hfeed Hemb Hdisk Hfeed'.
  destruct (loads (file w)) eqn:Hl.
  - assert (file (process_shop_data w) = file w) as Hfile.
    { destruct (feed_serves_completed w data embeds Hfeed Hl Hemb) as [_ ->].
      unfold file_after_cycle, saved_file. cbv zeta.
      case_bool_decide; [|done].
      match goal with |- context [disk ?k] => destruct (Hdisk k) as [msg ->] end. done. }
    split; [exact Hfile|].
    rewrite (posts_of_completed w data embeds Hfeed Hl Hemb).
    rewrite <-Hfile in Hemb, Hl.
    by rewrite (posts_of_completed _ data embeds Hfeed' Hl Hemb).
  - destruct (load_error_cycle w data Hfeed Hl) as (e & He & Hev & Hfile).
    split; [exact Hfile|]. rewrite <-Hfile in Hl.
    destruct (load_error_cycle _ data Hfeed' Hl) as (e' & He' & Hev' & _).
    rewrite Hev, Hev'. unfold failure_line. done.
Qed.

(** With no snapshot to load and no section in the feed, the cycle
    writes nothing: a missing file stays missing, although the warning
    of [read_old_data] announces a new file. *)
Theorem empty_feed_creates_no_file (w : world) (data : Body) :
  feed_serves w data →
  file w = Missing →
  sections_of data = [] →
  cycle_events w
  = [fetching; HttpGet API_URL; FileRead SNAPSHOT_PATH;
     Log WARNING "No previous shop data found or JSON is corrupt. Creating a new file.";
     Log INFO "Processing 0 shop sections...";
     Log INFO "No changes detected in shop data."]
  ∧ file (process_shop_data w) = Missing.
Proof.
  intros Hfeed Hfile Hnil.
  assert (embeds_of (changed_sections (loaded (file w)) (sections_of data)) = Ok [])
    as Hemb by (by rewrite Hnil).
  assert (loads (file w) = true) as Hl by (by rewrite Hfile).
  destruct (feed_serves_completed w data [] Hfeed Hl Hemb) as [-> ->].
  unfold completed_cycle, file_after_cycle, before_dispatch, after_dispatch, dispatch.
  cbv zeta. rewrite Hnil, Hfile. done.
Qed.

(** With distinct identifiers in the feed, a cycle that runs to its end
    (the feed answers, the snapshot loads, every message is built) and
    posts at least one message also writes the new mapping. *)
Theorem announcing_implies_writing (w : world) (data : Body) (embeds : list embed) :
  feed_serves w data →
  loads (file w) = true →
  embeds_of (changed_sections (loaded (file w)) (sections_of data)) = Ok embeds →
  NoDup (section_id_of <$> sections_of data) →
  embeds ≠ [] →
  FileWrite SNAPSHOT_PATH (new_data_of (sections_of data)) ∈ cycle_events w.
Proof.
  intros Hfeed Hl Hemb Hnd Hsome.
  destruct (feed_serves_completed w data embeds Hfeed Hl Hemb) as [-> _].
  apply completed_cycle_writes. split; [|done]. intros Heq.
  rewrite Heq, changed_sections_steady in Hemb by done.
  simpl in Hemb. by injection Hemb as <-.
Qed.

End Successive.

(* ===================================================================== *)
(** ** The helpers that nothing calls *)
(* ===================================================================== *)

Section Helpers.

(** *** [count_billboards] *)

Lemma count_billboards_fold (secs : list RawSection) (m : gmap (option string) Z)
    (k : option string) :
  foldl (λ billboard_counts section,
           <[sectionID section := billboards (groups_of section)]> billboard_counts)
        m secs !! k
  = match last (filter (λ s, sectionID s = k) secs) with
    | Some s => Some (billboards (groups_of s))
    | None => m !! k
    end.
Proof.
  revert m. induction secs as [|s secs IH]; intros m; [done|].
  cbn [foldl]. rewrite IH, filter_cons.
  destruct (decide (sectionID s = k)) as [Hid|Hid].
  - rewrite last_cons_or. destruct (last (filter _ secs)); [done|].
    rewrite Hid. by rewrite lookup_insert_eq.
  - destruct (last (filter _ secs)); [done|]. by rewrite lookup_insert_ne.
Qed.

Lemma count_billboards_last (data : ShopData) (k : option string) :
  count_billboards data !! k
  = (λ s, billboards (groups_of s))
      <$> last (filter (λ s, sectionID s = k) (default [] (sections data))).
Proof.
  unfold count_billboards. cbv zeta. fold groups_of.
  rewrite count_billboards_fold.
  destruct (last (filter _ (default [] (sections data)))); [done|]. apply lookup_empty.
Qed.

(** Under each key, [count_billboards] holds the billboard count of the
    last section with that [sectionID] (the key [None] collects the
    sections without one); a key of no section is absent, and no count
    is negative.  Without the [sections] key the result is empty. *)
Theorem count_billboards_lookup (data : ShopData) (k : option string) :
  count_billboards data !! k
  = (λ s, billboards (groups_of s))
      <$> last (filter (λ s, sectionID s = k) (default [] (sections data)))
  ∧ (∀ n, count_billboards data !! k = Some n → 0 ≤ n)
  ∧ (sections data = None → count_billboards data = ∅).
Proof.
  pose proof (count_billboards_last data k) as Hl.
  split; [exact Hl|]. split.
  - rewrite Hl. intros n Hn.
    destruct (last (filter _ (default [] (sections data)))) as [s|]; [|done].
    injection Hn as <-. apply billboards_bounds.
  - intros Hnone. unfold count_billboards. by rewrite Hnone.
Qed.

Lemma to_dict_billboard (n : NormalizedSection) :
  to_dict n !! "billboard" = Some (VInt (billboard n)).
Proof. unfold to_dict. by rewrite !lookup_insert_ne, lookup_insert_eq by done. Qed.

(** For every identifier other than the default ["N/A"], the count of
    [count_billboards] is the billboard count of the record that the
    cycle stores under that identifier. *)
Theorem count_billboards_agrees_with_record (data : ShopData) (sid : string) :
  sid ≠ "N/A" →
  VInt <$> count_billboards data !! Some sid
  = new_data_of (default [] (sections data)) !! sid ≫= (λ r, r !! "billboard").
Proof.
  intros Hsid. rewrite count_billboards_last.
  rewrite new_data_lookup. unfold last_with_id.
  rewrite (list_filter_iff (λ s, sectionID s = Some sid) (λ s, section_id_of s = sid)).
  - destruct (last (filter _ (default [] (sections data)))) as [s|]; [|done].
    simpl. unfold record_of. by rewrite to_dict_billboard.
  - intros s. unfold section_id_of. destruct (sectionID s) as [i|]; simpl.
    + split; [by intros [= ->]|by intros ->].
    + split; [done|]. intros <-. done.
Qed.

(** *** [normalize_data] *)

Lemma sorted_idem (xs : list string) : sorted (sorted xs) = sorted xs.
Proof. apply sorted_unique, sorted_Permutation. Qed.

Lemma set_sorted_idem (xs : list string) :
  sorted (iter_set (set (sorted (iter_set (set xs))))) = sorted (iter_set (set xs)).
Proof.
  f_equal. unfold iter_set, set. f_equal.
  rewrite (list_to_set_perm_L _ (elements (list_to_set xs : gset string)))
    by apply sorted_Permutation.
  apply list_to_set_elements_L.
Qed.

(** What one turn of the loop of [normalize_data] does to a record. *)
Lemma normalize_section_spec (r r' : record) :
  normalize_section r = Some r' →
  (∀ k, k ≠ "contexts" → k ≠ "release_dates" → r' !! k = r !! k)
  ∧ r' !! "contexts"
    = r !! "contexts" ≫= (λ v, xs ← iterate v; Some (VList (sorted (iter_set (set xs)))))
  ∧ r' !! "release_dates"
    = r !! "release_dates" ≫= (λ v, xs ← iterate v; Some (VList (sorted xs)))
  ∧ (∀ v, r !! "contexts" = Some v → is_Some (iterate v))
  ∧ (∀ v, r !! "release_dates" = Some v → is_Some (iterate v)).
Proof.
  unfold normalize_section. intros Hn.
  destruct (r !! "contexts") as [v|] eqn:Hc.
  - destruct (iterate v) as [xs|] eqn:Hv; [|done]. simpl in Hn.
    rewrite lookup_insert_ne in Hn by congruence.
    destruct (r !! "release_dates") as [v2|] eqn:Hd.
    + destruct (iterate v2) as [ys|] eqn:Hv2; [|done]. simpl in Hn. injection Hn as <-.
      split; [|split; [|split; [|split]]].
      * intros k ? ?. by rewrite !lookup_insert_ne by congruence.
      * rewrite lookup_insert_ne, lookup_insert_eq by congruence. simpl. by rewrite Hv.
      * rewrite lookup_insert_eq. simpl. by rewrite Hv2.
      * intros ? [= <-]. by rewrite Hv.
      * intros ? [= <-]. by rewrite Hv2.
    + simpl in Hn. injection Hn as <-. split; [|split; [|split; [|split]]].
      * intros k ? ?. by rewrite lookup_insert_ne by congruence.
      * rewrite lookup_insert_eq. simpl. by rewrite Hv.
      * by rewrite lookup_insert_ne by congruence.
      * intros ? [= <-]. by rewrite Hv.
      * done.
  - simpl in Hn. destruct (r !! "release_dates") as [v2|] eqn:Hd.
    + destruct (iterate v2) as [ys|] eqn:Hv2; [|done]. simpl in Hn. injection Hn as <-.
      split; [|split; [|split; [|split]]].
      * intros k ? ?. by rewrite lookup_insert_ne by congruence.
      * by rewrite lookup_insert_ne by congruence.
      * rewrite lookup_insert_eq. simpl. by rewrite Hv2.
      * done.
      * intros ? [= <-]. by rewrite Hv2.
    + injection Hn as <-. by rewrite Hc, Hd.
Qed.

(** A record whose two lists are in normal form is left as it is. *)
Lemma normalize_section_fixed (r : record) :
  (∀ v, r !! "contexts" = Some v →
        ∃ cs, v = VList cs ∧ sorted (iter_set (set cs)) = cs) →
  (∀ v, r !! "release_dates" = Some v → ∃ ds, v = VList ds ∧ sorted ds = ds) →
  normalize_section r = Some r.
Proof.
  intros Hc Hd. unfold normalize_section.
  assert (match r !! "contexts" with
          | Some v =>
              xs ← iterate v; Some (<["contexts" := VList (sorted (iter_set (set xs)))]> r)
          | None => Some r
          end = Some r) as ->.
  { destruct (r !! "contexts") as [v|] eqn:Hv; [|done].
    destruct (Hc v eq_refl) as (cs & -> & Hcs). simpl. rewrite Hcs.
    by rewrite insert_id. }
  simpl. destruct (r !! "release_dates") as [v|] eqn:Hv; [|done].
  destruct (Hd v eq_refl) as (ds & -> & Hds). simpl. rewrite Hds.
  by rewrite insert_id.
Qed.

Lemma normalize_section_idem (r r' : record) :
  normalize_section r = Some r' → normalize_section r' = Some r'.
Proof.
  intros (_ & Hc & Hd & _ & _)%normalize_section_spec. apply normalize_section_fixed.
  - intros v. rewrite Hc. destruct (r !! "contexts") as [v0|]; [|done]. simpl.
    destruct (iterate v0) as [xs|]; [|done]. simpl. intros [= <-].
    eexists. split; [done|]. apply set_sorted_idem.
  - intros v. rewrite Hd. destruct (r !! "release_dates") as [v0|]; [|done]. simpl.
    destruct (iterate v0) as [xs|]; [|done]. simpl. intros [= <-].
    eexists. split; [done|]. apply sorted_idem.
Qed.

Lemma normalize_data_Some (data data' : snapshot) :
  normalize_data data = Some data' ↔
  (∀ sid r, data !! sid = Some r → is_Some (normalize_section r))
  ∧ data' = omap normalize_section data.
Proof.
  unfold normalize_data. case_bool_decide as Hall.
  - split; [by intros [= <-]|]. by intros [_ ->].
  - split; [done|]. by intros [? _].
Qed.

Lemma normalize_data_fixed (data : snapshot) :
  (∀ sid r, data !! sid = Some r → normalize_section r = Some r) →
  normalize_data data = Some data.
Proof.
  intros Hfix. apply normalize_data_Some. split.
  - intros sid r Hr. rewrite (Hfix sid r Hr). by eexists.
  - apply map_eq. intros sid. rewrite lookup_omap.
    destruct (data !! sid) as [r|] eqn:Hr; [|done]. simpl. by rewrite (Hfix sid r Hr).
Qed.

(** [normalize_data] is idempotent: applied to its own result it returns
    that result. *)
Theorem normalize_data_idempotent (data data' : snapshot) :
  normalize_data data = Some data' → normalize_data data' = Some data'.
Proof.
  intros [Hall ->]%normalize_data_Some. apply normalize_data_fixed.
  intros sid r'. rewrite lookup_omap.
  destruct (data !! sid) as [r|]; [|done]. simpl. apply normalize_section_idem.
Qed.

(** [normalize_data] keeps, in every record, every key and the value of
    every key other than ["contexts"] and ["release_dates"]; it leaves
    the contexts sorted and free of duplicates and the release dates
    sorted. *)
Theorem normalize_data_touches_two_keys
    (data data' : snapshot) (sid : string) (r' : record) :
  normalize_data data = Some data' →
  data' !! sid = Some r' →
  ∃ r, data !! sid = Some r
       ∧ (∀ k, is_Some (r' !! k) ↔ is_Some (r !! k))
       ∧ (∀ k, k ≠ "contexts" → k ≠ "release_dates" → r' !! k = r !! k)
       ∧ (∀ v, r' !! "contexts" = Some v →
               ∃ cs, v = VList cs ∧ Sorted str_le cs ∧ NoDup cs)
       ∧ (∀ v, r' !! "release_dates" = Some v → ∃ ds, v = VList ds ∧ Sorted str_le ds).
Proof.
  intros [Hall ->]%normalize_data_Some. rewrite lookup_omap.
  destruct (data !! sid) as [r|] eqn:Hr; [|done]. simpl. intros Hn.
  exists r. split; [done|].
  destruct (normalize_section_spec r r' Hn) as (Hother & Hc & Hd & Hic & Hid).
  split; [|split; [exact Hother|split]].
  - intros k. destruct (decide (k = "contexts")) as [->|Hk1].
    { rewrite Hc. destruct (r !! "contexts") as [v|]; [|done].
      destruct (Hic v eq_refl) as [xs Hxs]. simpl. rewrite Hxs. simpl.
      split; intros _; by eexists. }
    destruct (decide (k = "release_dates")) as [->|Hk2].
    { rewrite Hd. destruct (r !! "release_dates") as [v|]; [|done].
      destruct (Hid v eq_refl) as [xs Hxs]. simpl. rewrite Hxs. simpl.
      split; intros _; by eexists. }
    by rewrite Hother.
  - intros v. rewrite Hc. destruct (r !! "contexts") as [v0|]; [|done]. simpl.
    destruct (iterate v0) as [xs|]; [|done]. simpl. intros [= <-].
    eexists. split; [done|]. split; [apply sorted_Sorted|].
    rewrite sorted_Permutation. apply NoDup_elements.
  - intros v. rewrite Hd. destruct (r !! "release_dates") as [v0|]; [|done]. simpl.
    destruct (iterate v0) as [xs|]; [|done]. simpl. intros [= <-].
    eexists. split; [done|]. apply sorted_Sorted.
Qed.

Lemma to_dict_contexts (n : NormalizedSection) :
  to_dict n !! "contexts" = Some (VList (contexts n)).
Proof. unfold to_dict. by rewrite !lookup_insert_ne, lookup_insert_eq by done. Qed.

Lemma to_dict_release_dates (n : NormalizedSection) :
  to_dict n !! "release_dates" = Some (VList (release_dates n)).
Proof. unfold to_dict. by rewrite !lookup_insert_ne, lookup_insert_eq by done. Qed.

(** The mapping that a cycle builds is already in the normal form of
    [normalize_data]: the call returns it unchanged and never raises on
    it. *)
Theorem cycle_output_is_normalized (secs : list RawSection) :
  normalize_data (new_data_of secs) = Some (new_data_of secs).
Proof.
  apply normalize_data_fixed. intros sid r. rewrite new_data_lookup.
  destruct (last_with_id sid secs) as [s|]; [|done]. simpl. intros [= <-].
  unfold record_of. apply normalize_section_fixed.
  - intros v. rewrite to_dict_contexts. intros [= <-].
    exists (contexts (new_section_of s)). split; [done|].
    rewrite contexts_of_section. apply set_sorted_idem.
  - intros v. rewrite to_dict_release_dates. intros [= <-].
    exists (release_dates (new_section_of s)). split; [done|].
    rewrite release_dates_of_section. apply sorted_idem.
Qed.

End Helpers.

(* ===================================================================== *)
(** ** More about the message *)
(* ===================================================================== *)

Section MessageContent.
Context {lib : DatetimeLib}.

Lemma filter_keeps_all {A} (P : A → Prop) `{∀ x, Decision (P x)} (l : list A) :
  (∀ x, x ∈ l → P x) → filter P l = l.
Proof.
  induction l as [|x l IH]; intros Hall; [done|].
  rewrite filter_cons, decide_True by (apply Hall; by left).
  f_equal. apply IH. intros y Hy. apply Hall. by right.
Qed.

Lemma stamps_of_dates (dates stamps : list string) :
  Forall2 (λ d y, date_marker d = Ok y) dates stamps →
  ∃ dts, Forall2 (λ d dt, fromisoformat d = Ok dt) dates dts
         ∧ Forall2 (λ dt y, to_discord_timestamp dt = Ok y) dts stamps.
Proof.
  induction 1 as [|d y dates stamps Hd _ (dts & Hdts & Hstamps)].
  - exists []. split; constructor.
  - unfold date_marker in Hd.
    destruct (fromisoformat d) as [dt|e] eqn:Hdt; [|done].
    exists (dt :: dts). split; by constructor.
Qed.

(** The test [if date] of the message never drops a release date of a
    record that the cycle built: when the message of a section with
    release dates is built, its last field holds one time marker per
    release date of the record, in the record's order, separated by
    newlines; each marker is the one [to_discord_timestamp] makes of the
    date that [fromisoformat] reads. *)
Theorem release_dates_field_content (section : RawSection) (e : embed) :
  release_dates (new_section_of section) ≠ [] →
  create_embed_for_section section (new_section_of section) = Ok e →
  ∃ dts stamps,
    Forall2 (λ d dt, fromisoformat d = Ok dt) (release_dates (new_section_of section)) dts
    ∧ Forall2 (λ dt y, to_discord_timestamp dt = Ok y) dts stamps
    ∧ last (fields e)
      = Some (Field "**Possible Release Dates**" (join newline stamps) false).
Proof.
  intros Hne He.
  assert (filter (λ date, truthy_str date = true) (release_dates (new_section_of section))
          = release_dates (new_section_of section)) as Hkeep.
  { apply filter_keeps_all. intros d Hd. apply truthy_str_true. intros ->.
    by apply elem_of_release_dates in Hd as (rank & _ & _ & Hd). }
  revert Hne He Hkeep. generalize (new_section_of section). intros n Hne He Hkeep.
  unfold create_embed_for_section in He.
  destruct (release_dates_field (release_dates n)) as [rd|err] eqn:Hrd; [|done].
  injection He as <-.
  assert (∃ dts stamps,
            Forall2 (λ d dt, fromisoformat d = Ok dt) (release_dates n) dts
            ∧ Forall2 (λ dt y, to_discord_timestamp dt = Ok y) dts stamps
            ∧ rd = join newline stamps) as (dts & stamps & Hdts & Hstamps & ->).
  { unfold release_dates_field in Hrd. rewrite Hkeep in Hrd.
    destruct (release_dates n) as [|d0 dates]; [done|].
    destruct (for_each _ (d0 :: dates)) as [stamps|] eqn:Hfe; [|done].
    injection Hrd as <-. apply for_each_Ok, stamps_of_dates in Hfe as (dts & Hdts & Hst).
    by exists dts, stamps. }
  exists dts, stamps. split; [done|]. split; [done|].
  destruct (truthy (category section)), (bool_decide (billboard n > 0)); reflexivity.
Qed.

End MessageContent.

(* ===================================================================== *)
(** ** Repeated identifiers, and the webhook *)
(* ===================================================================== *)

Section Overrides.

Lemma last_with_id_is_Some (secs : list RawSection) (s : RawSection) :
  s ∈ secs → is_Some (last_with_id (section_id_of s) secs).
Proof.
  intros Hs. unfold last_with_id. apply last_is_Some. intros Hnil.
  assert (s ∈ filter (λ s0, section_id_of s0 = section_id_of s) secs) as Hin.
  { by apply list_elem_of_filter. }
  rewrite Hnil in Hin. by apply elem_of_nil in Hin.
Qed.

(** When the snapshot is up to date with the feed, the sections that
    still compare as changed are exactly those that a later section with
    the same identifier overrides with a record that differs apart from
    the release dates: such a section is announced in every cycle. *)
Theorem overridden_sections_stay_changed (secs : list RawSection) (s : RawSection) :
  s ∈ changed_sections (new_data_of secs) secs
  ↔ s ∈ secs
    ∧ ∃ s', last_with_id (section_id_of s) secs = Some s'
            ∧ section_changed (record_of s') (record_of s) = true.
Proof.
  rewrite elem_of_changed_sections. unfold is_changed, old_section_of.
  rewrite new_data_lookup. split.
  - intros [Hch Hs]. split; [done|].
    destruct (last_with_id_is_Some secs s Hs) as [s' Hs'].
    exists s'. split; [done|]. by rewrite Hs' in Hch.
  - intros (Hs & s' & Hs' & Hch). split; [|done]. by rewrite Hs'.
Qed.

End Overrides.

Section WebhookIndependence.
Context {lib : DatetimeLib}.

Lemma length_post_events (out : Outside) (k : nat) (embeds : list embed) :
  length (post_events (out:=out) k embeds) = (2 * length embeds)%nat.
Proof.
  revert k. induction embeds as [|e embeds IH]; intros k; [done|].
  cbn [post_events length]. rewrite IH. lia.
Qed.

Lemma length_dispatch (out : Outside) (k : nat) (embeds : list embed) :
  length (dispatch (out:=out) k embeds) = (3 * length embeds)%nat.
Proof.
  unfold dispatch. rewrite length_app, length_post_events, length_replicate. lia.
Qed.

(** What the webhook answers has no influence on the snapshot file or on
    which messages are posted: two runs of a cycle that differ only in
    the webhook's answers leave the same file and make the same POSTs. *)
Theorem webhook_does_not_affect_the_file (out1 out2 : Outside) (w : world) :
  (∀ k, api (Outside:=out1) k = api (Outside:=out2) k) →
  (∀ k, disk (Outside:=out1) k = disk (Outside:=out2) k) →
  file (process_shop_data (out:=out1) w) = file (process_shop_data (out:=out2) w)
  ∧ posts_of (cycle_events (out:=out1) w) = posts_of (cycle_events (out:=out2) w).
Proof.
  intros Hapi Hdisk.
  destruct (api (Outside:=out1) (S (now w))) as [msg|r] eqn:Hr1.
  { pose proof Hr1 as Hr2. rewrite Hapi in Hr2.
    pose proof (cycle_get_raises (out:=out1) w msg Hr1) as H1.
    pose proof (cycle_get_raises (out:=out2) w msg Hr2) as H2.
    destruct (cycle_events_extend (out:=out1) w _ H1) as [-> ->].
    by destruct (cycle_events_extend (out:=out2) w _ H2) as [-> ->]. }
  pose proof Hr1 as Hr2. rewrite Hapi in Hr2.
  destruct (decide (status_code r = 200)) as [Hst|Hst].
  2: { pose proof (cycle_bad_status (out:=out1) w r Hr1 Hst) as H1.
       pose proof (cycle_bad_status (out:=out2) w r Hr2 Hst) as H2.
       destruct (cycle_events_extend (out:=out1) w _ H1) as [-> ->].
       by destruct (cycle_events_extend (out:=out2) w _ H2) as [-> ->]. }
  destruct (json r) as [data|e] eqn:Hjs.
  2: { pose proof (cycle_bad_body (out:=out1) w r e Hr1 Hst Hjs) as H1.
       pose proof (cycle_bad_body (out:=out2) w r e Hr2 Hst Hjs) as H2.
       destruct (except_spec e w [fetching; HttpGet API_URL]) as [msg Hex].
       rewrite Hex in H1, H2.
       destruct (cycle_events_extend (out:=out1) w _ H1) as [-> ->].
       by destruct (cycle_events_extend (out:=out2) w _ H2) as [-> ->]. }
  destruct (loads (file w)) eqn:Hl.
  2: { assert (feed_serves (out:=out1) w data) as Hf1 by (by exists r).
       assert (feed_serves (out:=out2) w data) as Hf2 by (by exists r).
       destruct (aborted_cycle_is_quiet (out:=out1) w data Hf1 (or_introl Hl))
         as (Hp1 & _ & ->).
       destruct (aborted_cycle_is_quiet (out:=out2) w data Hf2 (or_introl Hl))
         as (Hp2 & _ & ->).
       by rewrite (posts_of_none _ Hp1), (posts_of_none _ Hp2). }
  destruct (embeds_of (changed_sections (loaded (file w)) (sections_of data)))
    as [embeds|e] eqn:Hemb.
  - assert (feed_serves (out:=out1) w data) as Hf1 by (by exists r).
    assert (feed_serves (out:=out2) w data) as Hf2 by (by exists r).
    rewrite (posts_of_completed (out:=out1) w data embeds Hf1 Hl Hemb).
    rewrite (posts_of_completed (out:=out2) w data embeds Hf2 Hl Hemb).
    split; [|done].
    destruct (feed_serves_completed (out:=out1) w data embeds Hf1 Hl Hemb) as [_ ->].
    destruct (feed_serves_completed (out:=out2) w data embeds Hf2 Hl Hemb) as [_ ->].
    unfold file_after_cycle, saved_file. cbv zeta.
    rewrite !length_dispatch, Hdisk. done.
  - assert (feed_serves (out:=out1) w data) as Hf1 by (by exists r).
    assert (feed_serves (out:=out2) w data) as Hf2 by (by exists r).
    assert (is_ok (embeds_of (changed_sections (loaded (file w)) (sections_of data)))
            = false) as Hbad by (by rewrite Hemb).
    destruct (format_error_is_quiet (out:=out1) w data Hf1 Hbad) as (Hp1 & _ & ->).
    destruct (format_error_is_quiet (out:=out2) w data Hf2 Hbad) as (Hp2 & _ & ->).
    by rewrite (posts_of_none _ Hp1), (posts_of_none _ Hp2).
Qed.

End WebhookIndependence.

(* ===================================================================== *)
(** ** The further theorems at the sample data *)
(* ===================================================================== *)

Section MoreInstances.
Import Sample MoreSamples.

(** The helpers on the sample data. *)
Example normalize_messy :
  normalize_data messy
  = Some {[ "X" := <["contexts" := VList ["a"; "b"]]>
                   (<["release_dates" := VList ["a"; "b"]]>
                   (<["group_count" := VInt 1]> ∅)) ]}.
Proof. vm_compute. reflexivity. Qed.

Example normalize_broken : normalize_data broken = None.
Proof. vm_compute. reflexivity. Qed.

(** Iteration over text goes by character, not by byte. *)
Example chars_are_code_points :
  chars "né€" = ["n"; "é"; "€"]
  ∧ iterate (VStr "é") = Some ["é"]
  ∧ normalize_section (<["release_dates" := VStr "éa"]> ∅)
    = Some (<["release_dates" := VList ["a"; "é"]]> ∅).
Proof. repeat split; vm_compute; reflexivity. Qed.

Example count_sample :
  count_billboards {| sections := Some [featured; bare; renamed] |}
  = <[Some "Featured1" := 0]> (<[Some "Bare" := 0]> ∅).
Proof. vm_compute. reflexivity. Qed.

Example count_featured :
  count_billboards {| sections := Some [bare; featured] |} !! Some "Featured1" = Some 2.
Proof. vm_compute. reflexivity. Qed.

Lemma record_ignores_feed_order_witness :
  new_section_of featured
  = new_section_of
      {| sectionID := Some "Featured1"; displayName := Some "Featured";
         category := Some "Featured";
         metadata := Some {| background := Some {| customTexture := Some "http://x/y.png" |};
                             offerGroups := Some (reverse featured_groups);
                             stackRanks := Some (reverse featured_ranks) |} |}.
Proof.
  apply (record_ignores_feed_order (Some "Featured1") (Some "Featured") (Some "Featured")
           (Some {| customTexture := Some "http://x/y.png" |})
           featured_groups (reverse featured_groups)
           featured_ranks (reverse featured_ranks)).
  - symmetry. apply reverse_Permutation.
  - symmetry. apply reverse_Permutation.
Defined.

Lemma request_failure_aborts_the_cycle_witness :
  cycle_events (lib:=lib) (out:=offline) seen_featured
  = [fetching; HttpGet API_URL;
     Log ERROR "Error fetching Fortnite shop data: Connection refused"]
  ∧ file (process_shop_data (lib:=lib) (out:=offline) seen_featured) = file seen_featured.
Proof.
  exact (request_failure_aborts_the_cycle (lib:=lib) (out:=offline) seen_featured
           "Connection refused" eq_refl).
Defined.


Lemma feed_serves_read_only (w : world) (data : Body) :
  feed_serves (out:=read_only data) w data.
Proof. eexists. by repeat split. Qed.

Lemma one_post_per_changed_section_witness :
  ∃ embeds,
    embeds_of (lib:=lib) (changed_sections ∅ [featured; bare]) = Ok embeds
    ∧ length embeds = 2%nat
    ∧ posts_of (cycle_events (lib:=lib) (out:=read_only (body_of [featured; bare])) fresh)
      = post_of <$> embeds.
Proof.
  destruct (embeds_of (lib:=lib) (changed_sections ∅ [featured; bare]))
    as [embeds|err] eqn:Hemb; [|vm_compute in Hemb; discriminate].
  exists embeds. split; [reflexivity|]. split.
  - vm_compute in Hemb. injection Hemb as <-. reflexivity.
  - exact (proj1 (one_post_per_changed_section
                    (lib:=lib) (out:=read_only (body_of [featured; bare]))
                    fresh (body_of [featured; bare]) embeds
                    (feed_serves_read_only _ _) eq_refl Hemb)).
Defined.

Lemma cycle_invariants_witness :
  count is_get (cycle_events (lib:=lib) (out:=serving (body_of [featured])) fresh) = 1%nat
  ∧ count is_write (cycle_events (lib:=lib) (out:=serving (body_of [featured])) fresh)
    = 1%nat.
Proof.
  destruct (cycle_invariants (lib:=lib) (out:=serving (body_of [featured])) fresh)
    as (_ & Hget & _ & _ & Hwrite).
  split; [exact Hget|]. apply Hwrite. vm_compute. discriminate.
Defined.

Lemma distinct_sample_ids : NoDup (section_id_of <$> [featured; bare]).
Proof. apply (bool_decide_eq_true_1 _). vm_compute. reflexivity. Qed.

Lemma steady_state_is_quiet_witness :
  posts_of (cycle_events (lib:=lib) (out:=serving (body_of [featured; bare]))
              (process_shop_data (lib:=lib) (out:=serving (body_of [featured; bare])) fresh))
  = []
  ∧ count is_write
      (cycle_events (lib:=lib) (out:=serving (body_of [featured; bare]))
         (process_shop_data (lib:=lib) (out:=serving (body_of [featured; bare])) fresh))
    = 0%nat.
Proof.
  destruct (embeds_of (lib:=lib) (changed_sections ∅ [featured; bare]))
    as [embeds|err] eqn:Hemb; [|vm_compute in Hemb; discriminate].
  destruct (steady_state_is_quiet
              (lib:=lib) (out:=serving (body_of [featured; bare]))
              fresh (body_of [featured; bare]) embeds
              (feed_serves_serving _ _) eq_refl Hemb (λ k, eq_refl) distinct_sample_ids
              (feed_serves_serving _ _)) as (Hposts & Hwrites & _).
  split; [exact Hposts|exact Hwrites].
Defined.

Lemma unwritable_snapshot_repeats_posts_witness :
  file (process_shop_data (lib:=lib) (out:=read_only (body_of [featured])) fresh) = Missing
  ∧ posts_of (cycle_events (lib:=lib) (out:=read_only (body_of [featured]))
                (process_shop_data (lib:=lib) (out:=read_only (body_of [featured])) fresh))
    = posts_of (cycle_events (lib:=lib) (out:=read_only (body_of [featured])) fresh)
  ∧ length (posts_of (cycle_events (lib:=lib) (out:=read_only (body_of [featured])) fresh))
    = 1%nat.
Proof.
  destruct (embeds_of (lib:=lib) (changed_sections ∅ [featured]))
    as [embeds|err] eqn:Hemb; [|vm_compute in Hemb; discriminate].
  destruct (unwritable_snapshot_repeats_posts
              (lib:=lib) (out:=read_only (body_of [featured]))
              fresh (body_of [featured]) embeds
              (feed_serves_read_only _ _) Hemb
              (λ k, ex_intro _ "Permission denied" eq_refl)
              (feed_serves_read_only _ _)) as [Hfile Hposts].
  split; [exact Hfile|]. split; [exact Hposts|]. vm_compute. reflexivity.
Defined.

Lemma empty_feed_creates_no_file_witness :
  file (process_shop_data (lib:=lib) (out:=serving empty_body) fresh) = Missing.
Proof.
  exact (proj2 (empty_feed_creates_no_file (lib:=lib) (out:=serving empty_body)
                  fresh empty_body (feed_serves_serving _ _) eq_refl eq_refl)).
Defined.

Lemma announcing_implies_writing_witness :
  FileWrite SNAPSHOT_PATH (new_data_of [featured; bare])
  ∈ cycle_events (lib:=lib) (out:=serving (body_of [featured; bare])) fresh.
Proof.
  destruct (embeds_of (lib:=lib) (changed_sections ∅ [featured; bare]))
    as [embeds|err] eqn:Hemb; [|vm_compute in Hemb; discriminate].
  apply (announcing_implies_writing
           (lib:=lib) (out:=serving (body_of [featured; bare]))
           fresh (body_of [featured; bare]) embeds
           (feed_serves_serving _ _) eq_refl Hemb distinct_sample_ids).
  vm_compute in Hemb. injection Hemb as <-. discriminate.
Defined.

Lemma count_billboards_lookup_witness :
  count_billboards {| sections := Some [bare; featured] |} !! Some "Featured1" = Some 2
  ∧ 0 ≤ 2
  ∧ count_billboards {| sections := None |} = ∅.
Proof.
  destruct (count_billboards_lookup {| sections := Some [bare; featured] |}
              (Some "Featured1")) as (Hl & Hpos & _).
  destruct (count_billboards_lookup {| sections := None |} None) as (_ & _ & Hnone).
  split; [rewrite Hl; vm_compute; reflexivity|].
  split; [apply Hpos; vm_compute; reflexivity|exact (Hnone eq_refl)].
Defined.

Lemma count_billboards_agrees_with_record_witness :
  VInt <$> count_billboards {| sections := Some [bare; featured] |} !! Some "Featured1"
  = new_data_of [bare; featured] !! "Featured1" ≫= (λ r, r !! "billboard").
Proof.
  exact (count_billboards_agrees_with_record {| sections := Some [bare; featured] |}
           "Featured1" ltac:(discriminate)).
Defined.

Lemma normalize_data_idempotent_witness :
  ∃ data', normalize_data messy = Some data' ∧ normalize_data data' = Some data'.
Proof.
  destruct (normalize_data messy) as [data'|] eqn:Hn; [|vm_compute in Hn; discriminate].
  exists data'. split; [reflexivity|].
  exact (normalize_data_idempotent messy data' Hn).
Defined.

Lemma normalize_data_touches_two_keys_witness :
  ∃ data' r', normalize_data messy = Some data' ∧ data' !! "X" = Some r'
              ∧ r' !! "group_count" = Some (VInt 1).
Proof.
  destruct (normalize_data messy) as [data'|] eqn:Hn; [|vm_compute in Hn; discriminate].
  destruct (data' !! "X") as [r'|] eqn:Hr';
    [|vm_compute in Hn; injection Hn as <-; vm_compute in Hr'; discriminate].
  exists data', r'. split; [reflexivity|]. split; [exact Hr'|].
  destruct (normalize_data_touches_two_keys messy data' "X" r' Hn Hr')
    as (r & Hr & _ & Hother & _).
  rewrite Hother by discriminate.
  vm_compute in Hr. injection Hr as <-. vm_compute. reflexivity.
Defined.

Lemma release_dates_field_content_witness :
  ∃ e, create_embed_for_section (lib:=lib) featured (new_section_of featured) = Ok e
       ∧ last (fields e)
         = Some (Field "**Possible Release Dates**" "<t:1714521600:R>" false).
Proof.
  destruct (create_embed_for_section (lib:=lib) featured (new_section_of featured))
    as [e|err] eqn:He; [|vm_compute in He; discriminate].
  exists e. split; [reflexivity|].
  destruct (release_dates_field_content (lib:=lib) featured e
              ltac:(vm_compute; discriminate) He) as (dts & stamps & Hdts & Hstamps & ->).
  vm_compute in Hdts.
  inversion Hdts as [|d dt ds dts' Hd Hrest]; subst.
  inversion Hrest; subst.
  vm_compute in Hd. injection Hd as <-.
  inversion Hstamps as [|dt y dts' stamps' Hy Hrest']; subst.
  inversion Hrest'; subst.
  vm_compute in Hy. injection Hy as <-. vm_compute. reflexivity.
Defined.

Lemma webhook_does_not_affect_the_file_witness :
  file (process_shop_data (lib:=lib) (out:=serving (body_of [featured])) fresh)
  = file (process_shop_data (lib:=lib) (out:=rejecting (body_of [featured])) fresh)
  ∧ posts_of (cycle_events (lib:=lib) (out:=serving (body_of [featured])) fresh)
    = posts_of (cycle_events (lib:=lib) (out:=rejecting (body_of [featured])) fresh).
Proof.
  exact (webhook_does_not_affect_the_file (lib:=lib)
           (serving (body_of [featured])) (rejecting (body_of [featured])) fresh
           (λ k, eq_refl) (λ k, eq_refl)).
Defined.

(** The webhook rejects the message: the error is logged, the task still
    finishes its sleep, and the snapshot is written all the same. *)
Example rejected_message :
  drop 7 (cycle_events (lib:=lib) (out:=rejecting (body_of [featured])) fresh)
  = [ Log ERROR "Failed to send message: 500 - Internal Server Error";
      Slept 1;
      Log INFO "New shop data detected, updating old data file...";
      FileWrite SNAPSHOT_PATH (new_data_of [featured]);
      Log INFO "Updated shop data saved successfully." ].
Proof. vm_compute. reflexivity. Qed.

End MoreInstances.
